(** * A shallow embedding of the service worker [static/sw.js] and of the
    page script [static/js/app.js]

    The worker is an event-driven program over three host facilities: the
    network ([fetch]), the cache storage ([caches], a creation-ordered
    collection of named caches) and the worker's own control surface
    ([skipWaiting], [clients.claim], [console.log]).  Each event handler is
    embedded as a function from the state of these facilities before the
    event to the state after it; promise chains are written in a small
    state-and-rejection monad, so that [.then] is [bind] and [.catch] is
    [catch_].

    Host behaviour taken from the platform and not from [sw.js]:
    - [caches.match] consults every cache of the storage in creation order and
      yields the first hit; only GET requests match, by their URL without its
      fragment, and never a response whose Vary header has [*].  Requests
      carry no headers here, so the comparison of the request headers that a
      stored Vary header names is left out;
    - [cache.put] rejects for a request whose method is not GET or whose URL
      is not http or https, and for a response of status 206 or whose Vary
      header has [*]; it replaces the entry of the same URL without fragment;
    - [cache.addAll] rejects before fetching when a URL is not http or https,
      fetches every request, rejects when one fetch fails or one response is
      not ok (status outside 200..299, or 206) or has [*] in its Vary header,
      or when two of the requests have the same URL without fragment, and
      stores either all the responses or none;
    - storage operations themselves do not fail, and one event is handled
      without interleaving from another. *)

From Stdlib Require Import ZArith String Ascii List Bool Lia.
From stdpp Require Import base option gmap strings list fin_maps.
Import ListNotations.

Local Open Scope string_scope.
Local Open Scope Z_scope.

(** ** Strings as the source uses them *)

Module Str.

(** [s.startsWith(p)] *)
Definition startsWith (s p : string) : bool := String.prefix p s.

(** The double quote character. *)
Definition dquote : ascii := ascii_of_nat 34.
Definition backslash : ascii := ascii_of_nat 92.

(** Longest prefix of [s] none of whose characters satisfies [stop], and
    the rest of [s] (which starts at the first stopping character). *)
Fixpoint break (stop : ascii -> bool) (s : string) : string * string :=
  match s with
  | EmptyString => (EmptyString, EmptyString)
  | String c rest =>
      if stop c then (EmptyString, s)
      else let '(a, b) := break stop rest in (String c a, b)
  end.

Definition is_char (c : ascii) : ascii -> bool := fun d => Ascii.eqb c d.

Definition one_of (cs : list ascii) : ascii -> bool :=
  fun d => existsb (Ascii.eqb d) cs.

Fixpoint all_chars (p : ascii -> bool) (s : string) : bool :=
  match s with
  | EmptyString => true
  | String c rest => p c && all_chars p rest
  end.

Definition join (sep : string) (l : list string) : string :=
  match l with
  | [] => EmptyString
  | x :: rest => fold_left (fun acc y => acc +:+ sep +:+ y) rest x
  end.

Definition lower_char (c : ascii) : ascii :=
  let n := nat_of_ascii c in
  if (Nat.leb 65 n && Nat.leb n 90)%bool then ascii_of_nat (n + 32) else c.

Fixpoint lower (s : string) : string :=
  match s with
  | EmptyString => EmptyString
  | String c rest => String (lower_char c) (lower rest)
  end.

Definition is_blank (c : ascii) : bool :=
let n := nat_of_ascii c in
(Nat.eqb n 9 || Nat.eqb n 10 || Nat.eqb n 13 || Nat.eqb n 32)%bool.

Fixpoint trim_left (s : string) : string :=
match s with
| EmptyString => EmptyString
| String c rest => if is_blank c then trim_left rest else s
end.

(** [s] without the blanks at its end. *)
Fixpoint trim_right (s : string) : string :=
match s with
| EmptyString => EmptyString
| String c rest =>
    match trim_right rest with
    | EmptyString => if is_blank c then EmptyString else String c EmptyString
    | t => String c t
    end
end.

Definition trim (s : string) : string := trim_right (trim_left s).

(** The pieces of [s] between the occurrences of [sep], [cur] being the
    piece under way. *)
Fixpoint split_from (sep : ascii) (s : string) (cur : string) : list string :=
match s with
| EmptyString => [cur]
| String c rest =>
    if Ascii.eqb c sep then cur :: split_from sep rest EmptyString
    else split_from sep rest (cur +:+ String c EmptyString)
end.

Definition split (sep : ascii) (s : string) : list string := split_from sep s EmptyString.

End Str.

(** ** URLs

    [new URL(href)] for an absolute, serialised URL such as [request.url]:
    scheme, then [//authority] when present, then the path up to [?] or [#].
    The constructor throws on a string that has no scheme. *)

Record URL : Type := mkURL {
  protocol : string;   (* without the colon *)
  host : string;
  pathname : string;
  search : string;
  hash : string
}.

Definition is_alpha (c : ascii) : bool :=
  let n := nat_of_ascii c in
  ((Nat.leb 65 n && Nat.leb n 90) || (Nat.leb 97 n && Nat.leb n 122))%bool.

Definition is_scheme_char (c : ascii) : bool :=
  let n := nat_of_ascii c in
  (is_alpha c || (Nat.leb 48 n && Nat.leb n 57)
   || Nat.eqb n 43 || Nat.eqb n 45 || Nat.eqb n 46)%bool.

Definition valid_scheme (s : string) : bool :=
  match s with
  | EmptyString => false
  | String c rest => is_alpha c && Str.all_chars is_scheme_char rest
  end.

Definition is_special (scheme : string) : bool :=
  (String.eqb scheme "http" || String.eqb scheme "https")%bool.

Definition new_URL (href : string) : option URL :=
  let '(scheme, rest) := Str.break (Str.is_char ":") href in
  match rest with
  | EmptyString => None
  | String _ after_colon =>
      if negb (valid_scheme scheme) then None
      else
        let '(authority, tail) :=
          if Str.startsWith after_colon "//"
          then Str.break (Str.one_of ["/"; "?"; "#"]%char)
                         (String.substring 2 (String.length after_colon - 2) after_colon)
          else (EmptyString, after_colon) in
        let '(path, tail') := Str.break (Str.one_of ["?"; "#"]%char) tail in
        let '(query, fragment) := Str.break (Str.is_char "#") tail' in
        if (is_special scheme && String.eqb authority EmptyString)%bool then None
        else
          Some {| protocol := scheme;
                  host := authority;
                  pathname := if (is_special scheme && String.eqb path EmptyString)%bool
                              then "/" else path;
                  search := query;
                  hash := fragment |}
  end.

(** ** Requests, responses and errors *)

Record Request : Type := mkRequest {
  req_method : string;
  req_url : string      (* absolute, serialised *)
}.

Inductive ResponseType : Type :=
  | type_basic | type_cors | type_default | type_error | type_opaque | type_opaqueredirect.

Record Response : Type := mkResponse {
  status : Z;
  rtype : ResponseType;
  headers : list (string * string);
  body : string
}.

Inductive JSError : Type :=
  | TypeError (message : string)
  | DOMException (name message : string).

Definition error_text (e : JSError) : string :=
  match e with
  | TypeError m => "TypeError: " +:+ m
  | DOMException n m => n +:+ ": " +:+ m
  end.

#[global] Instance ResponseType_eq_dec : EqDecision ResponseType.
Proof. solve_decision. Defined.

#[global] Instance Request_eq_dec : EqDecision Request.
Proof. solve_decision. Defined.

#[global] Instance Response_eq_dec : EqDecision Response.
Proof. solve_decision. Defined.

(** [response.ok] *)
Definition ok (r : Response) : bool := (200 <=? status r) && (status r <=? 299).

(** [response.headers.get(name)]: header names compare without case. *)
Fixpoint headers_get (hs : list (string * string)) (name : string) : option string :=
  match hs with
  | [] => None
  | (k, v) :: rest =>
      if String.eqb (Str.lower k) (Str.lower name) then Some v
      else headers_get rest name
  end.

(** [new Response(body, { headers })]: status 200, type "default". *)
Definition new_Response (b : string) (hs : list (string * string)) : Response :=
  {| status := 200; rtype := type_default; headers := hs; body := b |}.

(** ** [JSON.stringify] of an object whose properties are strings *)

Module JSON.

Definition hex_digit (n : nat) : ascii :=
  if Nat.ltb n 10 then ascii_of_nat (48 + n) else ascii_of_nat (87 + n).

(** One character of a string, as it appears between the quotes. *)
Definition escape_char (c : ascii) : string :=
  let n := nat_of_ascii c in
  if Ascii.eqb c Str.dquote then String Str.backslash (String Str.dquote EmptyString)
  else if Ascii.eqb c Str.backslash then String Str.backslash (String Str.backslash EmptyString)
  else if Nat.eqb n 8 then String Str.backslash "b"
  else if Nat.eqb n 9 then String Str.backslash "t"
  else if Nat.eqb n 10 then String Str.backslash "n"
  else if Nat.eqb n 12 then String Str.backslash "f"
  else if Nat.eqb n 13 then String Str.backslash "r"
  else if Nat.ltb n 32 then
    String Str.backslash
      ("u00" +:+ String (hex_digit (Nat.div n 16)) (String (hex_digit (Nat.modulo n 16)) EmptyString))
  else String c EmptyString.

Fixpoint escape (s : string) : string :=
  match s with
  | EmptyString => EmptyString
  | String c rest => escape_char c +:+ escape rest
  end.

Definition quote (s : string) : string :=
  String Str.dquote (escape s) +:+ String Str.dquote EmptyString.

Definition stringify (props : list (string * string)) : string :=
  "{" +:+ Str.join "," (map (fun kv => quote (fst kv) +:+ ":" +:+ quote (snd kv)) props) +:+ "}".

End JSON.

(** ** Values that a message event can carry *)

Unset Elimination Schemes.
Inductive JSValue : Type :=
  | JSUndefined
  | JSNull
  | JSBoolean (b : bool)
  | JSNumber (n : Z)
  | JSString (s : string)
  | JSArray (items : list JSValue)
  | JSObject (props : list (string * JSValue)).
Set Elimination Schemes.

(** [v === s] for a string literal [s]: no conversion takes place, so only
    the primitive string with the same characters is equal. *)
Definition strict_equals_string (v : JSValue) (s : string) : bool :=
  match v with
  | JSString t => String.eqb t s
  | _ => false
  end.

(** ** The host state *)

(** A cache: URL of a GET request, without its fragment, to the stored
    response. *)
Abbreviation Cache := (gmap string Response).

(** Work started by a handler whose promise the handler does not return:
    [caches.open(name).then(cache => { cache.put(request, response) })]. *)
Inductive Job : Type :=
  | OpenAndPut (name : string) (request : Request) (response : Response).

Record World : Type := mkWorld {
  caches : list (string * Cache);      (* CacheStorage, in creation order *)
  console : list string;               (* lines written by console.log *)
  net_log : list Request;              (* every fetch() issued, in order *)
  skip_waiting : nat;                  (* calls of self.skipWaiting() *)
  clients_claimed : nat;               (* calls of self.clients.claim() *)
  detached : list Job                  (* started, not yet carried out *)
}.

Definition with_caches (cs : list (string * Cache)) (w : World) : World :=
  {| caches := cs; console := console w; net_log := net_log w;
     skip_waiting := skip_waiting w; clients_claimed := clients_claimed w;
     detached := detached w |}.

Definition console_log (args : list string) (w : World) : World :=
  {| caches := caches w; console := console w ++ [Str.join " " args];
     net_log := net_log w; skip_waiting := skip_waiting w;
     clients_claimed := clients_claimed w; detached := detached w |}.

Definition log_fetches (rs : list Request) (w : World) : World :=
  {| caches := caches w; console := console w; net_log := net_log w ++ rs;
     skip_waiting := skip_waiting w; clients_claimed := clients_claimed w;
     detached := detached w |}.

Definition skipWaiting (w : World) : World :=
  {| caches := caches w; console := console w; net_log := net_log w;
     skip_waiting := S (skip_waiting w); clients_claimed := clients_claimed w;
     detached := detached w |}.

Definition clients_claim (w : World) : World :=
  {| caches := caches w; console := console w; net_log := net_log w;
     skip_waiting := skip_waiting w; clients_claimed := S (clients_claimed w);
     detached := detached w |}.

Definition detach (j : Job) (w : World) : World :=
  {| caches := caches w; console := console w; net_log := net_log w;
     skip_waiting := skip_waiting w; clients_claimed := clients_claimed w;
     detached := detached w ++ [j] |}.

Definition clear_detached (w : World) : World :=
  {| caches := caches w; console := console w; net_log := net_log w;
     skip_waiting := skip_waiting w; clients_claimed := clients_claimed w;
     detached := [] |}.

(** What is outside the worker during one event: where the worker is served
    from, and how the network answers each request. *)
Inductive NetResult : Type :=
  | NetResponse (r : Response)
  | NetFailure (message : string).

Record Env : Type := mkEnv {
  origin : string;                     (* self.location.origin *)
  network : Request -> NetResult
}.

(** ** Promises

    A promise chain that runs to its settlement, over the host state.  *)

Inductive Settled (A : Type) : Type :=
  | Fulfilled (a : A)
  | Rejected (e : JSError).
Arguments Fulfilled {A} a.
Arguments Rejected {A} e.

Definition Promise (A : Type) : Type := World -> Settled A * World.

Definition resolve {A} (a : A) : Promise A := fun w => (Fulfilled a, w).

Definition reject {A} (e : JSError) : Promise A := fun w => (Rejected e, w).

(** [p.then(f)] *)
Definition then_ {A B} (p : Promise A) (f : A -> Promise B) : Promise B :=
  fun w =>
    match p w with
    | (Fulfilled a, w') => f a w'
    | (Rejected e, w') => (Rejected e, w')
    end.

(** [p.catch(h)] *)
Definition catch_ {A} (p : Promise A) (h : JSError -> Promise A) : Promise A :=
  fun w =>
    match p w with
    | (Fulfilled a, w') => (Fulfilled a, w')
    | (Rejected e, w') => h e w'
    end.

(** A synchronous effect inside a callback. *)
Definition effect (f : World -> World) : Promise unit := fun w => (Fulfilled tt, f w).

Notation "'await' x <- p ; q" := (then_ p (fun x => q))
  (at level 10, x name, p at level 100, q at level 200).
Notation "'run' p ; q" := (then_ p (fun _ => q))
  (at level 10, p at level 100, q at level 200).

(** ** The host operations the worker calls *)

(** [fetch(request)] *)
Definition fetch (env : Env) (request : Request) : Promise Response :=
  fun w =>
    (match network env request with
     | NetResponse r => Fulfilled r
     | NetFailure m => Rejected (TypeError m)
     end,
     log_fetches [request] w).

Definition is_GET (request : Request) : bool := String.eqb (req_method request) "GET".

(** The URL of the request is an http or https one. *)
Definition is_http (request : Request) : bool :=
  match new_URL (req_url request) with
  | Some url => is_special (protocol url)
  | None => false
  end.

(** A serialised URL without its fragment: the key of a cache entry. *)
Definition cache_key (url : string) : string := fst (Str.break (Str.is_char "#") url).

(** One of the values of the response's Vary header fields is [*]. *)
Definition vary_star (r : Response) : bool :=
  existsb (fun kv => String.eqb (Str.lower (fst kv)) "vary" &&
                     existsb (fun v => String.eqb (Str.trim v) "*") (Str.split "," (snd kv)))
          (headers r).

(** The response has a Vary header field.  Without one a stored response
    matches whatever headers the request carries. *)
Definition has_vary (r : Response) : bool :=
  existsb (fun kv => String.eqb (Str.lower (fst kv)) "vary") (headers r).

(** What [cache.put] accepts. *)
Definition put_accepts (request : Request) (response : Response) : bool :=
  is_GET request && is_http request &&
  negb (status response =? 206) && negb (vary_star response).

(** [cache.match(request)] on one cache. *)
Definition cache_match (c : Cache) (request : Request) : option Response :=
  if is_GET request then
    match c !! cache_key (req_url request) with
    | Some r => if vary_star r then None else Some r
    | None => None
    end
  else None.

(** First hit over the caches of the storage, in creation order. *)
Fixpoint storage_match (cs : list (string * Cache)) (request : Request) : option Response :=
  match cs with
  | [] => None
  | (_, c) :: rest =>
      match cache_match c request with
      | Some r => Some r
      | None => storage_match rest request
      end
  end.

(** [caches.match(request)]; [None] is [undefined]. *)
Definition caches_match (request : Request) : Promise (option Response) :=
  fun w => (Fulfilled (storage_match (caches w) request), w).

(** The cache of that name, if the storage has one. *)
Fixpoint storage_get (cs : list (string * Cache)) (name : string) : option Cache :=
  match cs with
  | [] => None
  | (n, c) :: rest => if String.eqb n name then Some c else storage_get rest name
  end.

(** [caches.keys()] *)
Definition storage_keys (cs : list (string * Cache)) : list string := map fst cs.

Definition caches_keys : Promise (list string) :=
  fun w => (Fulfilled (storage_keys (caches w)), w).

(** [caches.open(name)]: the cache of that name, created empty at the end of
    the storage when there is none.  The result stands for the cache object. *)
Definition storage_open (cs : list (string * Cache)) (name : string) : list (string * Cache) :=
  match storage_get cs name with
  | Some _ => cs
  | None => cs ++ [(name, ∅)]
  end.

Definition caches_open (name : string) : Promise string :=
  fun w => (Fulfilled name, with_caches (storage_open (caches w) name) w).

(** [caches.delete(name)]: resolves to whether a cache was removed. *)
Fixpoint storage_delete (cs : list (string * Cache)) (name : string) : list (string * Cache) :=
  match cs with
  | [] => []
  | (n, c) :: rest =>
      if String.eqb n name then storage_delete rest name
      else (n, c) :: storage_delete rest name
  end.

Definition caches_delete (name : string) : Promise bool :=
  fun w =>
    (Fulfilled (bool_decide (is_Some (storage_get (caches w) name))),
     with_caches (storage_delete (caches w) name) w).

(** Replace the content of the cache called [name]. *)
Fixpoint storage_update (cs : list (string * Cache)) (name : string)
    (f : Cache -> Cache) : list (string * Cache) :=
  match cs with
  | [] => []
  | (n, c) :: rest =>
      if String.eqb n name then (n, f c) :: rest
      else (n, c) :: storage_update rest name f
  end.

(** [cache.put(request, response)] on the cache called [name]. *)
Definition cache_put (name : string) (request : Request) (response : Response) : Promise unit :=
  fun w =>
    if put_accepts request response
    then (Fulfilled tt,
          with_caches
            (storage_update (caches w) name (<[cache_key (req_url request) := response]>)) w)
    else (Rejected (TypeError "Failed to execute 'put' on 'Cache'"), w).

(** A URL string of the seed list, resolved against the worker's location.
    The list holds two forms only, and both are left as they are written by
    the resolution: serialised absolute URLs, and root-relative paths without
    dot segments, which get the origin in front. *)
Definition resolve_url (env : Env) (u : string) : string :=
  match new_URL u with
  | Some _ => u
  | None => origin env +:+ u
  end.

Definition GET (env : Env) (u : string) : Request :=
  {| req_method := "GET"; req_url := resolve_url env u |}.

(** The responses of the network to a batch of requests, or the first
    failure: a rejected fetch, or a response [cache.addAll] refuses. *)
Fixpoint fetch_all (env : Env) (requests : list Request)
    : JSError + list (Request * Response) :=
  match requests with
  | [] => inr []
  | q :: rest =>
      match network env q with
      | NetFailure m => inl (TypeError m)
      | NetResponse r =>
          if negb (ok r) || (status r =? 206) || vary_star r
          then inl (TypeError "Request failed")
          else match fetch_all env rest with
               | inl e => inl e
               | inr l => inr ((q, r) :: l)
               end
      end
  end.

Definition put_all (l : list (Request * Response)) (c : Cache) : Cache :=
  fold_left (fun acc qr => <[cache_key (req_url (fst qr)) := snd qr]> acc) l c.

(** The keys under which a batch of requests is stored. *)
Definition batch_keys (requests : list Request) : list string :=
  map (fun q => cache_key (req_url q)) requests.

(** [cache.addAll(urls)] on the cache called [name]. *)
Definition cache_addAll (env : Env) (name : string) (urls : list string) : Promise unit :=
  fun w =>
    let requests := map (GET env) urls in
    if negb (forallb is_http requests)
    then (Rejected (TypeError "Request scheme is unsupported"), w)
    else
      let w1 := log_fetches requests w in
      match fetch_all env requests with
      | inl e => (Rejected e, w1)
      | inr l =>
          if bool_decide (NoDup (batch_keys requests))
          then (Fulfilled tt, with_caches (storage_update (caches w1) name (put_all l)) w1)
          else (Rejected (DOMException "InvalidStateError" "duplicate requests"), w1)
      end.

(** [Promise.all(ps)] *)
Fixpoint Promise_all {A} (ps : list (Promise A)) : Promise (list A) :=
  match ps with
  | [] => resolve []
  | p :: rest =>
      await a <- p;
      await l <- Promise_all rest;
      resolve (a :: l)
  end.

(** ** The worker *)

Definition CACHE_NAME : string := "ponto-eletronico-v1".

Definition urlsToCache : list string := [
  "/";
  "/login";
  "/dashboard";
  "/static/css/style.css";
  "/static/js/app.js";
  "/static/manifest.json";
  "https://cdn.jsdelivr.net/npm/bootstrap@5.3.2/dist/css/bootstrap.min.css";
  "https://cdn.jsdelivr.net/npm/bootstrap-icons@1.11.1/font/bootstrap-icons.css";
  "https://cdn.jsdelivr.net/npm/bootstrap@5.3.2/dist/js/bootstrap.bundle.min.js"
].

(** *** install

    The promise handed to [event.waitUntil]; the handler's own last statement,
    [self.skipWaiting()], has run by the time the first callback of the chain
    does. *)
Definition install_chain (env : Env) : Promise unit :=
  catch_
    (await cache <- caches_open CACHE_NAME;
     run effect (console_log ["Cache aberto"]);
     cache_addAll env cache urlsToCache)
    (fun err => effect (console_log ["Erro no cache:"; error_text err])).

Definition on_install (env : Env) : Promise unit :=
  fun w => install_chain env (skipWaiting w).

(** *** activate

    The callback of [cacheNames.map] yields the promise of [caches.delete]
    for a stale name and [undefined] (here [None]) for the current one. *)
Definition delete_if_stale (cacheName : string) : Promise (option bool) :=
  if negb (String.eqb cacheName CACHE_NAME)
  then run effect (console_log ["Removendo cache antigo:"; cacheName]);
       await deleted <- caches_delete cacheName;
       resolve (Some deleted)
  else resolve None.

Definition activate_chain : Promise (list (option bool)) :=
  await cacheNames <- caches_keys;
  Promise_all (map delete_if_stale cacheNames).

Definition on_activate : Promise (list (option bool)) :=
  fun w => activate_chain (clients_claim w).

(** *** fetch *)

Definition is_api (url : URL) : bool :=
  Str.startsWith (pathname url) "/auth/" ||
  Str.startsWith (pathname url) "/ponto/" ||
  Str.startsWith (pathname url) "/admin/".

Definition offline_response : Response :=
  new_Response
    (JSON.stringify [("error", "Offline - Conecte-se à internet")])
    [("Content-Type", "application/json")].

(** Network first, for the API. *)
Definition network_first (env : Env) (request : Request) : Promise Response :=
  catch_ (fetch env request) (fun _ => resolve offline_response).

(** Cache first, for everything else.  [fetch] never resolves to a falsy
    value, so of the test [!response || response.status !== 200 ||
    response.type !== 'basic'] the last two disjuncts decide.  The clone of a
    response has its status, type, headers and body.  The promise of
    [caches.open(CACHE_NAME).then(...)] is dropped: the write is detached
    from the promise given to [respondWith]. *)
Definition cache_first (env : Env) (request : Request) : Promise Response :=
  await cached <- caches_match request;
  match cached with
  | Some response => resolve response
  | None =>
      await response <- fetch env request;
      if negb (status response =? 200) || negb (bool_decide (rtype response = type_basic))
      then resolve response
      else
        let responseToCache := response in
        run effect (detach (OpenAndPut CACHE_NAME request responseToCache));
        resolve response
  end.

(** What the fetch listener did with the event: it called
    [event.respondWith] with a promise, which settles as given, or it threw
    before doing so. *)
Inductive Handled : Type :=
  | RespondWith (outcome : Settled Response)
  | Threw (e : JSError).

Definition on_fetch (env : Env) (request : Request) (w : World) : Handled * World :=
  match new_URL (req_url request) with
  | None => (Threw (TypeError "Invalid URL"), w)
  | Some url =>
      let '(outcome, w') :=
        (if is_api url then network_first env request else cache_first env request) w in
      (RespondWith outcome, w')
  end.

(** The detached work, carried out. A rejection there is nobody's to handle. *)
Definition run_job (j : Job) : Promise unit :=
  match j with
  | OpenAndPut name request response =>
      await cache <- caches_open name;
      cache_put cache request response
  end.

Definition settle (w : World) : World :=
  fold_left (fun acc j => snd (run_job j acc)) (detached w) (clear_detached w).

(** *** message *)
Definition on_message (data : JSValue) (w : World) : World :=
  if strict_equals_string data "skipWaiting" then skipWaiting w else w.

(** ** The classification of a request, as the fetch listener decides it *)

Inductive Classification : Type := api | asset.

Definition classify (request : Request) : option Classification :=
  match new_URL (req_url request) with
  | None => None
  | Some url => Some (if is_api url then api else asset)
  end.

(** The cache the current version tag names, when the storage has it. *)
Definition current_store (w : World) : option Cache := storage_get (caches w) CACHE_NAME.


(** What carrying out a detached job does to the storage. *)
Definition job_storage (j : Job) (cs : list (string * Cache)) : list (string * Cache) :=
  match j with
  | OpenAndPut name request response =>
      if put_accepts request response
      then storage_update (storage_open cs name) name
                          (<[cache_key (req_url request) := response]>)
      else storage_open cs name
  end.

Definition job_target (j : Job) : string :=
  match j with OpenAndPut name _ _ => name end.

Definition job_response (j : Job) : Response :=
  match j with OpenAndPut _ _ r => r end.

(** The entry of [request] in the cache called [name]. *)
Definition lookup_in (cs : list (string * Cache)) (name : string) (request : Request)
    : option Response :=
  match storage_get cs name with
  | Some c => cache_match c request
  | None => None
  end.

(** What [cache.addAll] makes of the seed list: the error it rejects with, or
    the requests with the responses it stores. *)
Definition seeding (env : Env) : JSError + list (Request * Response) :=
  let requests := map (GET env) urlsToCache in
  if negb (forallb is_http requests)
  then inl (TypeError "Request scheme is unsupported")
  else
    match fetch_all env requests with
    | inl e => inl e
    | inr l =>
        if bool_decide (NoDup (batch_keys requests)) then inr l
        else inl (DOMException "InvalidStateError" "duplicate requests")
    end.

(** A seed request that [cache.addAll] goes through with. *)
Definition seed_accepted (env : Env) (u : string) : Prop :=
  is_http (GET env u) = true /\
  exists r, network env (GET env u) = NetResponse r /\
            ok r = true /\ status r <> 206 /\ vary_star r = false.

(** A seed request that makes [cache.addAll] reject. *)
Definition seed_refused (env : Env) (u : string) : Prop :=
  is_http (GET env u) = false \/
  match network env (GET env u) with
  | NetFailure _ => True
  | NetResponse r => ok r = false \/ status r = 206 \/ vary_star r = true
  end.

(** The storage after the deletions the activate listener asks for, name by
    name over the list [caches.keys()] gave it. *)
Definition purge (names : list string) (cs : list (string * Cache)) : list (string * Cache) :=
  fold_left
    (fun acc cacheName =>
       if negb (String.eqb cacheName CACHE_NAME) then storage_delete acc cacheName else acc)
    names cs.

(** The text [{"error":"Offline - Conecte-se à internet"}], character by character. *)
Definition offline_body : string :=
  "{" +:+ String Str.dquote "error" +:+ String Str.dquote ":"
      +:+ String Str.dquote "Offline - Conecte-se à internet"
      +:+ String Str.dquote "}".

(** The origin of an http or https page, as [location.origin] serialises it. *)
Definition origin_of (scheme authority : string) : string :=
  scheme +:+ "://" +:+ authority.

(** No character of [s] ends a URL component of the given kind. *)
Definition free_of (stops : list ascii) (s : string) : bool :=
  Str.all_chars (fun c => negb (Str.one_of stops c)) s.

(** A path as it stands in a serialised URL: it starts with a slash and runs
    up to the query or the fragment. *)
Definition is_path (p : string) : bool :=
  Str.startsWith p "/" && free_of ["?"; "#"]%char p.

(** What may follow the path: nothing, a query or a fragment. *)
Definition is_tail (t : string) : bool :=
  match t with
  | EmptyString => true
  | String c _ => Str.one_of ["?"; "#"]%char c
  end.

Definition is_api_path (p : string) : bool :=
  Str.startsWith p "/auth/" || Str.startsWith p "/ponto/" || Str.startsWith p "/admin/".

(** The line the activate listener logs for a stale cache. *)
Definition stale_line (cacheName : string) : string :=
  Str.join " " ["Removendo cache antigo:"; cacheName].

Definition is_stale (cacheName : string) : bool := negb (String.eqb cacheName CACHE_NAME).

(** * The page script [static/js/app.js]

    The script runs in a page: it reads and clears [localStorage], navigates
    by assigning [window.location.href], writes to the console and calls the
    page's [fetch], which the worker above intercepts once it controls the
    page.  [formatDate], [formatTime] and [formatDateTime] format through the
    host's locale data and are not embedded. *)

(** ** Plain objects as the script builds them *)

(** An object with string values: its own properties, in creation order. *)
Fixpoint obj_set (k v : string) (o : list (string * string)) : list (string * string) :=
  match o with
  | [] => [(k, v)]
  | (k', v') :: rest =>
      if String.eqb k' k then (k', v) :: rest else (k', v') :: obj_set k v rest
  end.

Fixpoint obj_get (o : list (string * string)) (k : string) : option string :=
  match o with
  | [] => None
  | (k', v) :: rest => if String.eqb k' k then Some v else obj_get rest k
  end.

(** [{ ...a, ...b }] *)
Definition obj_spread (a b : list (string * string)) : list (string * string) :=
  fold_left (fun acc kv => obj_set (fst kv) (snd kv) acc) b
            (fold_left (fun acc kv => obj_set (fst kv) (snd kv) acc) a []).

(** What a caller may pass as [options.headers]: nothing, a plain object, or
    a [Headers] instance, which has no own enumerable property. *)
Inductive HeadersInit : Type :=
  | headers_undefined
  | headers_object (props : list (string * string))
  | headers_instance (entries : list (string * string)).

Inductive BodyInit : Type :=
  | body_none
  | body_text (text : string)
  | body_FormData (fields : list (string * string)).

Record RequestInit : Type := mkInit {
  init_method : option string;
  init_headers : HeadersInit;
  init_body : BodyInit
}.

(** The own enumerable properties that [...(options.headers || {})] copies. *)
Definition spreadable (h : HeadersInit) : list (string * string) :=
  match h with
  | headers_object props => props
  | headers_undefined | headers_instance _ => []
  end.

Definition is_FormData (b : BodyInit) : bool :=
  match b with body_FormData _ => true | _ => false end.

Definition set_headers (h : list (string * string)) (options : RequestInit) : RequestInit :=
  {| init_method := init_method options;
     init_headers := headers_object h;
     init_body := init_body options |}.

(** ** The page *)

Inductive Level : Type := level_warn | level_error.

Record Page : Type := mkPage {
  localStorage : gmap string string;
  location_href : string;                     (* the last value assigned *)
  page_console : list (Level * string);
  fetched : list (string * RequestInit)       (* every fetch() of the page *)
}.

Definition getItem (key : string) (p : Page) : option string := localStorage p !! key.

Definition removeItem (key : string) (p : Page) : Page :=
  {| localStorage := delete key (localStorage p); location_href := location_href p;
     page_console := page_console p; fetched := fetched p |}.

Definition set_location (href : string) (p : Page) : Page :=
  {| localStorage := localStorage p; location_href := href;
     page_console := page_console p; fetched := fetched p |}.

Definition page_log (l : Level) (args : list string) (p : Page) : Page :=
  {| localStorage := localStorage p; location_href := location_href p;
     page_console := page_console p ++ [(l, Str.join " " args)]; fetched := fetched p |}.

Definition log_page_fetch (url : string) (init : RequestInit) (p : Page) : Page :=
  {| localStorage := localStorage p; location_href := location_href p;
     page_console := page_console p; fetched := fetched p ++ [(url, init)] |}.

(** [!token] for what [getItem] returns: [null] and the empty string. *)
Definition falsy (token : option string) : bool :=
  match token with
  | None | Some EmptyString => true
  | Some (String _ _) => false
  end.

(** The page's [fetch], as the script sees it. *)
Definition PageFetch : Type := string -> RequestInit -> NetResult.

(** *** fetchWithAuth

    The result is the value the promise resolves to ([None] is [null]), the
    caller's [options] object as the function leaves it, and the page. *)
Definition fetchWithAuth (fetch_ : PageFetch) (url : string) (options : RequestInit)
    (p : Page) : option Response * RequestInit * Page :=
  let token := getItem "token" p in
  if falsy token then
    (None, options, page_log level_warn ["Token não encontrado"] p)
  else
    let defaultHeaders :=
      [("Authorization", "Bearer " +:+ match token with Some t => t | None => "null" end)] in
    let options :=
      if is_FormData (init_body options)
      then set_headers (obj_spread defaultHeaders (spreadable (init_headers options))) options
      else set_headers (obj_spread defaultHeaders (spreadable (init_headers options))) options in
    let p := log_page_fetch url options p in
    match fetch_ url options with
    | NetResponse response =>
        if status response =? 401 then
          (None, options,
           set_location "/login"
             (removeItem "user"
                (removeItem "token"
                   (page_log level_warn ["Token inválido ou expirado"] p))))
        else (Some response, options, p)
    | NetFailure m =>
        (None, options,
         page_log level_error ["Erro na requisição:"; error_text (TypeError m)] p)
    end.

(** *** logout *)
Definition logout (fetch_ : PageFetch) (p : Page) : Page :=
  let init := {| init_method := Some "POST"; init_headers := headers_undefined;
                 init_body := body_none |} in
  let p := log_page_fetch "/auth/logout" init p in
  let p :=
    match fetch_ "/auth/logout" init with
    | NetResponse _ => p
    | NetFailure m => page_log level_error ["Erro no logout:"; error_text (TypeError m)] p
    end in
  set_location "/login" (removeItem "user" (removeItem "token" p)).

(** *** checkAuth *)
Definition checkAuth (p : Page) : bool * Page :=
  let token := getItem "token" p in
  if falsy token then (false, set_location "/login" p) else (true, p).

(** ** The page's fetch under the worker

    A request of a controlled page is the fetch event of the worker: the
    page gets the response the listener's promise is fulfilled with, a
    network error when it is rejected, and the network's own answer when the
    listener threw before answering.

    The page and the worker have one origin, and the URLs the page asks for
    are taken to be root-relative references that URL resolution leaves as
    they are ([plain_path]): the request's URL is then the origin followed by
    the reference, and the request is a same-origin one.  References with
    dot segments, backslashes, characters that resolution encodes, a query
    or a scheme are outside this embedding. *)

Definition is_unreserved (c : ascii) : bool :=
  let n := nat_of_ascii c in
  (is_alpha c || (Nat.leb 48 n && Nat.leb n 57)
   || Nat.eqb n 45 || Nat.eqb n 46 || Nat.eqb n 95 || Nat.eqb n 126)%bool.

Definition plain_path (p : string) : bool :=
  Str.startsWith p "/" && negb (Str.startsWith p "//") &&
  Str.all_chars (fun c => is_unreserved c || Ascii.eqb c "/") p &&
  forallb (fun segment => negb (String.eqb segment "." || String.eqb segment ".."))
          (Str.split "/" p).

(** A response as a same-origin page receives it: one built in the worker
    (type "default") arrives as a "basic" response, without the headers a
    page may not read. *)
Definition as_basic (r : Response) : Response :=
  match rtype r with
  | type_default =>
      {| status := status r;
         rtype := type_basic;
         headers := List.filter
                      (fun kv => negb (String.eqb (Str.lower (fst kv)) "set-cookie" ||
                                       String.eqb (Str.lower (fst kv)) "set-cookie2"))
                      (headers r);
         body := body r |}
  | _ => r
  end.

Definition upper_char (c : ascii) : ascii :=
  let n := nat_of_ascii c in
  if (Nat.leb 97 n && Nat.leb n 122)%bool then ascii_of_nat (n - 32) else c.

Fixpoint upper (s : string) : string :=
  match s with
  | EmptyString => EmptyString
  | String c rest => String (upper_char c) (upper rest)
  end.

(** The method of a [Request]: the six standard names are upper-cased. *)
Definition normalize_method (m : string) : string :=
  if existsb (String.eqb (upper m)) ["DELETE"; "GET"; "HEAD"; "OPTIONS"; "POST"; "PUT"]
  then upper m else m.

Definition request_of (env : Env) (url : string) (init : RequestInit) : Request :=
  {| req_method := match init_method init with
                   | Some m => normalize_method m
                   | None => "GET"
                   end;
     req_url := origin env +:+ url |}.

Definition controlled_fetch (env : Env) (w : World) (url : string) (init : RequestInit)
    : NetResult * World :=
  let request := request_of env url init in
  match on_fetch env request w with
  | (RespondWith (Fulfilled r), w') => (NetResponse (as_basic r), w')
  | (RespondWith (Rejected (TypeError m)), w') => (NetFailure m, w')
  | (RespondWith (Rejected (DOMException _ m)), w') => (NetFailure m, w')
  | (Threw _, w') => (network env request, log_fetches [request] w')
  end.

(** The page's fetch without a worker. *)
Definition direct_fetch (env : Env) (url : string) (init : RequestInit) : NetResult :=
  network env (request_of env url init).

(** ** Alerts

    An element is its class list, as [classList] has it, and its text. *)

Record Element : Type := mkElement {
  classes : list string;
  textContent : string
}.

Record Document : Type := mkDocument {
  elements : gmap string Element;             (* by id *)
  timers : list (Z * string)                  (* delay, id of the element to hide *)
}.

Definition is_ws (c : ascii) : bool :=
  let n := nat_of_ascii c in
  (Nat.eqb n 9 || Nat.eqb n 10 || Nat.eqb n 12 || Nat.eqb n 13 || Nat.eqb n 32)%bool.

(** The tokens of a class attribute, [cur] being the token under way. *)
Fixpoint tokens_from (s : string) (cur : string) : list string :=
  match s with
  | EmptyString => match cur with EmptyString => [] | _ => [cur] end
  | String c rest =>
      if is_ws c
      then match cur with
           | EmptyString => tokens_from rest EmptyString
           | _ => cur :: tokens_from rest EmptyString
           end
      else tokens_from rest (cur +:+ String c EmptyString)
  end.

(** A list of tokens as an ordered set: the first occurrence of each stays. *)
Fixpoint ordered_set (l : list string) : list string :=
  match l with
  | [] => []
  | t :: rest => t :: List.filter (fun u => negb (String.eqb u t)) (ordered_set rest)
  end.

(** [element.className = value] *)
Definition set_className (value : string) (e : Element) : Element :=
  {| classes := ordered_set (tokens_from value EmptyString); textContent := textContent e |}.

(** [document.getElementById(id)] *)
Definition getElementById (id : string) (d : Document) : option Element :=
  match id with
  | EmptyString => None
  | _ => elements d !! id
  end.

(** [element.classList.add(token)] *)
Definition classList_add (token : string) (e : Element) : Element :=
  {| classes := if bool_decide (token ∈ classes e) then classes e
                else classes e ++ [token];
     textContent := textContent e |}.

(** [element.classList.remove(token)] *)
Definition classList_remove (token : string) (e : Element) : Element :=
  {| classes := List.filter (fun t => negb (String.eqb t token)) (classes e);
     textContent := textContent e |}.

Definition set_textContent (text : string) (e : Element) : Element :=
  {| classes := classes e; textContent := text |}.

Definition update_element (id : string) (e : Element) (d : Document) : Document :=
  {| elements := <[id := e]> (elements d); timers := timers d |}.

Definition setTimeout (delay : Z) (id : string) (d : Document) : Document :=
  {| elements := elements d; timers := timers d ++ [(delay, id)] |}.

(** *** showAlert; [None] for [type] is the argument left out. *)
Definition showAlert (elementId message : string) (type : option string) (d : Document)
    : Document :=
  let type := match type with Some t => t | None => "danger" end in
  match getElementById elementId d with
  | Some alertEl =>
      let alertEl := set_className ("alert alert-" +:+ type) alertEl in
      let alertEl := set_textContent message alertEl in
      let alertEl := classList_remove "d-none" alertEl in
      let d := update_element elementId alertEl d in
      if String.eqb type "success" then setTimeout 5000 elementId d else d
  | None => d
  end.

(** *** hideAlert *)
Definition hideAlert (elementId : string) (d : Document) : Document :=
  match getElementById elementId d with
  | Some alertEl => update_element elementId (classList_add "d-none" alertEl) d
  | None => d
  end.

(** The callback [showAlert] hands to [setTimeout], on the element it holds. *)
Definition run_timer (id : string) (d : Document) : Document :=
  match elements d !! id with
  | Some alertEl => update_element id (classList_add "d-none" alertEl) d
  | None => d
  end.

(** The oldest timer fires. *)
Definition fire (d : Document) : Document :=
  match timers d with
  | [] => d
  | (_, id) :: rest => run_timer id {| elements := elements d; timers := rest |}
  end.

Definition hidden (id : string) (d : Document) : Prop :=
  exists e, getElementById id d = Some e /\ In "d-none" (classes e).

(** ** Worlds and environments used in the examples *)

Definition initial_world : World :=
  {| caches := []; console := []; net_log := []; skip_waiting := 0;
     clients_claimed := 0; detached := [] |}.

Definition page_origin : string := "https://ponto.example".

Definition offline : Env :=
  {| origin := page_origin; network := fun _ => NetFailure "Failed to fetch" |}.

Definition page (url : string) : Response :=
  {| status := 200; rtype := type_basic;
     headers := [("Content-Type", "text/html")]; body := "<!doctype html>" +:+ url |}.

Definition online : Env :=
  {| origin := page_origin; network := fun q => NetResponse (page (req_url q)) |}.

Definition not_found : Response :=
  {| status := 404; rtype := type_basic; headers := []; body := "Not Found" |}.

Definition online_404 : Env :=
  {| origin := page_origin; network := fun _ => NetResponse not_found |}.

Definition logout_request : Request :=
  {| req_method := "POST"; req_url := "https://ponto.example/auth/logout" |}.

Definition style_request : Request :=
  {| req_method := "GET"; req_url := "https://ponto.example/static/css/style.css" |}.

(** A storage whose only cache is the current one, holding the style sheet. *)
Definition visited_world : World :=
  with_caches
    [(CACHE_NAME, {[ req_url style_request := page (req_url style_request) ]})]
    initial_world.


(** The style sheet asked for with a fragment. *)
Definition style_request_top : Request :=
  {| req_method := "GET"; req_url := "https://ponto.example/static/css/style.css#top" |}.

(** A network whose every answer varies on everything. *)
Definition varying : Response :=
  {| status := 200; rtype := type_basic; headers := [("Vary", "*")]; body := "body" |}.

Definition online_varying : Env :=
  {| origin := page_origin; network := fun _ => NetResponse varying |}.

(** A storage that still has a cache of an earlier version. *)
Definition upgraded_world : World :=
  with_caches
    [("ponto-eletronico-v0", {[ req_url style_request := page "v0" ]});
     (CACHE_NAME, ∅)]
    initial_world.

(** A page with a session, and one without. *)
Definition signed_in : Page :=
  {| localStorage := {[ "token" := "abc123"; "user" := "maria"; "theme" := "dark" ]};
     location_href := "/dashboard"; page_console := []; fetched := [] |}.

Definition signed_out : Page :=
  {| localStorage := {[ "theme" := "dark" ]};
     location_href := "/dashboard"; page_console := []; fetched := [] |}.

Definition unauthorized : Response :=
  {| status := 401; rtype := type_basic; headers := []; body := "Unauthorized" |}.

Definition no_init : RequestInit :=
  {| init_method := None; init_headers := headers_undefined; init_body := body_none |}.

Definition json_post : RequestInit :=
  {| init_method := Some "POST";
     init_headers := headers_object [("Content-Type", "application/json")];
     init_body := body_text "{}" |}.

Definition alert_box : Document :=
  {| elements := {[ "alerta" := {| classes := ["alert"; "d-none"]; textContent := "" |} ]};
     timers := [] |}.

(** * Properties *)

(** ** URL parsing on the addresses the worker sees *)

Example new_URL_logout :
  pathname <$> new_URL "https://ponto.example/auth/logout" = Some "/auth/logout".
Proof. reflexivity. Qed.

Example new_URL_query :
  pathname <$> new_URL "https://ponto.example/ponto/registros?mes=3#topo"
  = Some "/ponto/registros".
Proof. reflexivity. Qed.

Example new_URL_root :
  pathname <$> new_URL "https://ponto.example" = Some "/".
Proof. reflexivity. Qed.

Example new_URL_relative : new_URL "/login" = None.
Proof. reflexivity. Qed.

Example offline_body_is_stringified :
  body offline_response = offline_body.
Proof. reflexivity. Qed.

(** ** The cache storage *)

Section Storage.

Implicit Types (cs : list (string * Cache)) (name : string) (c : Cache).

Lemma storage_get_None cs name :
  storage_get cs name = None <-> ~ In name (storage_keys cs).
Proof.
  induction cs as [|[n c] rest IH]; simpl.
  - tauto.
  - destruct (String.eqb_spec n name) as [->|Hne].
    + split; [discriminate | intros H; exfalso; apply H; now left].
    + rewrite IH. split; [intros H [E|I]; [congruence | auto] | intros H I; apply H; now right].
Qed.

Lemma storage_get_In cs name c :
  storage_get cs name = Some c -> In (name, c) cs.
Proof.
  induction cs as [|[n c'] rest IH]; simpl; [discriminate|].
  destruct (String.eqb_spec n name) as [->|Hne].
  - intros [= ->]. now left.
  - intros H. right. auto.
Qed.

Lemma storage_get_app cs cs' name :
  storage_get (cs ++ cs') name =
  match storage_get cs name with Some c => Some c | None => storage_get cs' name end.
Proof.
  induction cs as [|[n c] rest IH]; simpl; [reflexivity|].
  destruct (String.eqb n name); [reflexivity | apply IH].
Qed.

Lemma storage_get_open cs name other :
  storage_get (storage_open cs name) other =
  if String.eqb name other
  then Some (match storage_get cs name with Some c => c | None => ∅ end)
  else storage_get cs other.
Proof.
  unfold storage_open.
  destruct (String.eqb_spec name other) as [<-|Hne].
  - destruct (storage_get cs name) eqn:E; [exact E|].
    rewrite storage_get_app, E. simpl. now rewrite String.eqb_refl.
  - destruct (storage_get cs name) eqn:E; [reflexivity|].
    rewrite storage_get_app. simpl.
    destruct (String.eqb_spec name other); [contradiction|].
    now destruct (storage_get cs other).
Qed.

Lemma storage_get_update cs name f other :
  storage_get (storage_update cs name f) other =
  if String.eqb name other then f <$> storage_get cs name else storage_get cs other.
Proof.
  induction cs as [|[n c] rest IH]; simpl.
  - now destruct (String.eqb name other).
  - destruct (String.eqb_spec n name) as [E|Hne]; simpl.
    + subst n. now destruct (String.eqb name other).
    + rewrite IH.
      destruct (String.eqb_spec name other) as [E|Hne']; [|reflexivity].
      subst other. now destruct (String.eqb_spec n name).
Qed.

Lemma storage_get_delete cs name other :
  storage_get (storage_delete cs name) other =
  if String.eqb name other then None else storage_get cs other.
Proof.
  induction cs as [|[n c] rest IH]; simpl.
  - now destruct (String.eqb name other).
  - destruct (String.eqb_spec n name) as [E|Hne]; simpl.
    + subst n. rewrite IH. now destruct (String.eqb name other).
    + rewrite IH.
      destruct (String.eqb_spec name other) as [E|Hne']; [|reflexivity].
      subst other. now destruct (String.eqb_spec n name).
Qed.




Lemma storage_match_miss cs request :
  storage_match cs request = None ->
  forall name, lookup_in cs name request = None.
Proof.
  unfold lookup_in.
  induction cs as [|[n c] rest IH]; simpl; [reflexivity|].
  destruct (cache_match c request) eqn:E; [discriminate|].
  intros H name. destruct (String.eqb n name); [exact E | now apply IH].
Qed.

End Storage.

(** ** The fetch listener, branch by branch *)

Section Fetch.

Variable env : Env.
Variable request : Request.

(** The api branch: one fetch, and the fallback in place of a rejection. *)
Lemma on_fetch_api w :
  classify request = Some api ->
  on_fetch env request w =
  (RespondWith
     (Fulfilled match network env request with
                | NetResponse r => r
                | NetFailure _ => offline_response
                end),
   log_fetches [request] w).
Proof.
  unfold classify, on_fetch.
  destruct (new_URL (req_url request)) as [url|]; [|discriminate].
  destruct (is_api url); [intros _|discriminate].
  unfold network_first, catch_, fetch.
  now destruct (network env request).
Qed.

(** The asset branch: the four ways through [cache_first]. *)
Lemma on_fetch_asset w :
  classify request = Some asset ->
  on_fetch env request w =
  match storage_match (caches w) request with
  | Some cached => (RespondWith (Fulfilled cached), w)
  | None =>
      match network env request with
      | NetFailure m => (RespondWith (Rejected (TypeError m)), log_fetches [request] w)
      | NetResponse r =>
          (RespondWith (Fulfilled r),
           if negb (status r =? 200) || negb (bool_decide (rtype r = type_basic))
           then log_fetches [request] w
           else detach (OpenAndPut CACHE_NAME request r) (log_fetches [request] w))
      end
  end.
Proof.
  unfold classify, on_fetch.
  destruct (new_URL (req_url request)) as [url|]; [|discriminate].
  destruct (is_api url); [discriminate|intros _].
  unfold cache_first, then_, caches_match, fetch.
  destruct (storage_match (caches w) request); [reflexivity|].
  destruct (network env request) as [r|m]; [|reflexivity].
  now destruct (negb (status r =? 200) || negb (bool_decide (rtype r = type_basic))).
Qed.

(** A response passes the test of the asset branch exactly when its status
    is 200 and its type is "basic". *)
Lemma cacheable_iff (r : Response) :
  negb (status r =? 200) || negb (bool_decide (rtype r = type_basic)) = false
  <-> status r = 200 /\ rtype r = type_basic.
Proof.
  rewrite orb_false_iff, !negb_false_iff, Z.eqb_eq, bool_decide_eq_true. tauto.
Qed.

Lemma not_cacheable (r : Response) :
  status r <> 200 \/ rtype r <> type_basic ->
  negb (status r =? 200) || negb (bool_decide (rtype r = type_basic)) = true.
Proof.
  intros H.
  destruct (negb (status r =? 200) || negb (bool_decide (rtype r = type_basic))) eqn:E;
    [reflexivity|].
  apply cacheable_iff in E. tauto.
Qed.

End Fetch.

(** ** Detached writes *)

Lemma run_job_caches j w :
  caches (snd (run_job j w)) = job_storage j (caches w).
Proof.
  destruct j as [name q r]. unfold run_job, then_, caches_open, cache_put, job_storage. simpl.
  now destruct (put_accepts q r).
Qed.

Lemma run_jobs_caches js w :
  caches (fold_left (fun acc j => snd (run_job j acc)) js w)
  = fold_left (fun cs j => job_storage j cs) js (caches w).
Proof.
  revert w. induction js as [|j js IH]; intros w; simpl; [reflexivity|].
  now rewrite IH, run_job_caches.
Qed.

Lemma settle_caches w :
  caches (settle w) = fold_left (fun cs j => job_storage j cs) (detached w) (caches w).
Proof. unfold settle. now rewrite run_jobs_caches. Qed.

(** Logging a fetch changes neither the storage nor what is detached. *)
Lemma settle_log_fetches qs w :
  caches (settle (log_fetches qs w)) = caches (settle w).
Proof. now rewrite !settle_caches. Qed.

(** One more detached job is carried out after the ones before it. *)
Lemma settle_detach j w :
  caches (settle (detach j w)) = job_storage j (caches (settle w)).
Proof. rewrite !settle_caches. simpl. now rewrite fold_left_app. Qed.

(** A job leaves every cache it does not name as it was. *)
Lemma job_storage_other j cs name :
  name <> job_target j ->
  storage_get (job_storage j cs) name = storage_get cs name.
Proof.
  destruct j as [target q r]; simpl. intros Hne.
  destruct (put_accepts q r).
  - rewrite storage_get_update.
    destruct (String.eqb_spec target name); [congruence|].
    rewrite storage_get_open.
    destruct (String.eqb_spec target name); [congruence | reflexivity].
  - rewrite storage_get_open.
    destruct (String.eqb_spec target name); [congruence | reflexivity].
Qed.

Lemma put_accepts_true request response :
  put_accepts request response = true ->
  is_GET request = true /\ is_http request = true /\
  status response <> 206 /\ vary_star response = false.
Proof.
  unfold put_accepts. rewrite !andb_true_iff, !negb_true_iff, Z.eqb_neq. tauto.
Qed.

Lemma cache_match_insert (c : Cache) request r q :
  vary_star r = false ->
  cache_match (<[cache_key (req_url request) := r]> c) q =
  if is_GET q && String.eqb (cache_key (req_url request)) (cache_key (req_url q))
  then Some r else cache_match c q.
Proof.
  intros Hv. unfold cache_match. destruct (is_GET q); simpl; [|reflexivity].
  destruct (String.eqb_spec (cache_key (req_url request)) (cache_key (req_url q))) as [E|Hne].
  - now rewrite E, lookup_insert_eq, Hv.
  - now rewrite lookup_insert_ne.
Qed.

Lemma cache_match_empty q : cache_match ∅ q = None.
Proof. unfold cache_match. destruct (is_GET q); [now rewrite lookup_empty | reflexivity]. Qed.

(** What a job leaves under a key of the cache it names: the job's response
    under the job's own key, and the entry from before under any other. *)
Lemma job_storage_lookup j cs q :
  lookup_in (job_storage j cs) (job_target j) q =
  match j with
  | OpenAndPut _ request response =>
      if put_accepts request response && is_GET q &&
         String.eqb (cache_key (req_url request)) (cache_key (req_url q))
      then Some response
      else lookup_in cs (job_target j) q
  end.
Proof.
  destruct j as [target request r]; unfold lookup_in; simpl.
  destruct (put_accepts request r) eqn:Hp; simpl.
  - destruct (put_accepts_true _ _ Hp) as (_ & _ & _ & Hv).
    rewrite storage_get_update, storage_get_open, String.eqb_refl. simpl.
    rewrite (cache_match_insert _ request r q Hv).
    destruct (is_GET q && String.eqb (cache_key (req_url request)) (cache_key (req_url q)));
      [reflexivity|].
    destruct (storage_get cs target); [reflexivity | apply cache_match_empty].
  - rewrite storage_get_open, String.eqb_refl.
    destruct (storage_get cs target); [reflexivity | apply cache_match_empty].
Qed.

(** Every way the fetch listener can leave the host state: untouched; one
    fetch logged; or one fetch logged and the write of a status-200 "basic"
    response to the current cache detached. *)
Lemma on_fetch_world env request w :
  snd (on_fetch env request w) = w \/
  snd (on_fetch env request w) = log_fetches [request] w \/
  exists r,
    network env request = NetResponse r /\ status r = 200 /\ rtype r = type_basic /\
    snd (on_fetch env request w)
    = detach (OpenAndPut CACHE_NAME request r) (log_fetches [request] w).
Proof.
  destruct (classify request) as [[|]|] eqn:Hc.
  - right; left. now rewrite (on_fetch_api env request w Hc).
  - rewrite (on_fetch_asset env request w Hc).
    destruct (storage_match (caches w) request); [now left|].
    destruct (network env request) as [r|m]; [|now right; left].
    destruct (negb (status r =? 200) || negb (bool_decide (rtype r = type_basic))) eqn:E.
    + now right; left.
    + right; right. apply cacheable_iff in E as [Hs Ht]. now exists r.
  - left. unfold classify in Hc. unfold on_fetch.
    now destruct (new_URL (req_url request)).
Qed.

(** ** The request router *)

(** C1: for a request classified api, a network response is returned as it
    is, and when the network fetch fails the router answers with the fallback
    response instead of the error: status in the success range, content type
    application/json, body the JSON text with the offline message under
    "error". *)
Theorem api_network_first env request w :
  classify request = Some api ->
  match network env request with
  | NetResponse r => fst (on_fetch env request w) = RespondWith (Fulfilled r)
  | NetFailure _ =>
      exists fallback,
        fst (on_fetch env request w) = RespondWith (Fulfilled fallback) /\
        ok fallback = true /\
        headers_get (headers fallback) "content-type" = Some "application/json" /\
        body fallback = offline_body
  end.
Proof.
  intros Hc. rewrite (on_fetch_api env request w Hc). simpl.
  destruct (network env request); [reflexivity|].
  exists offline_response. repeat split; reflexivity.
Qed.

Lemma api_network_first_offline :
  exists fallback,
    fst (on_fetch offline logout_request initial_world) = RespondWith (Fulfilled fallback) /\
    ok fallback = true /\
    headers_get (headers fallback) "content-type" = Some "application/json" /\
    body fallback = offline_body.
Proof. exact (api_network_first offline logout_request initial_world eq_refl). Defined.




(** C3: an asset request that misses the cache and whose network response
    has a status other than 200 or a type other than "basic" gets that
    response as its answer, and nothing is written or left to be written: the
    storage is as before and holds no entry for the request.  And whatever
    entry the storage holds once the writes of fetch handling are done, and
    did not hold without this event, is a response of status 200 and type
    "basic". *)
Theorem only_ok_basic_cached env request w :
  (forall r,
     classify request = Some asset ->
     storage_match (caches w) request = None ->
     network env request = NetResponse r ->
     status r <> 200 \/ rtype r <> type_basic ->
     on_fetch env request w = (RespondWith (Fulfilled r), log_fetches [request] w) /\
     caches (settle (snd (on_fetch env request w))) = caches (settle w) /\
     forall name, lookup_in (caches (snd (on_fetch env request w))) name request = None) /\
  caches (snd (on_fetch env request w)) = caches w /\
  (forall name q resp,
     lookup_in (caches (settle (snd (on_fetch env request w)))) name q = Some resp ->
     lookup_in (caches (settle w)) name q = Some resp \/
     (status resp = 200 /\ rtype resp = type_basic)).
Proof.
  split; [|split].
  - intros r Hc Hmiss Hnet Hbad.
    rewrite (on_fetch_asset env request w Hc), Hmiss, Hnet, (not_cacheable r Hbad). simpl.
    split; [reflexivity|]. split; [apply settle_log_fetches|].
    now apply storage_match_miss.
  - destruct (on_fetch_world env request w) as [E|[E|(r & _ & _ & _ & E)]];
      now rewrite E.
  - intros name q resp.
    destruct (on_fetch_world env request w) as [E|[E|(r & _ & Hs & Ht & E)]]; rewrite E.
    + now left.
    + rewrite settle_log_fetches. now left.
    + rewrite settle_detach, settle_log_fetches.
      set (j := OpenAndPut CACHE_NAME request r).
      destruct (String.eqb_spec name CACHE_NAME) as [->|Hne].
      * change CACHE_NAME with (job_target j). rewrite job_storage_lookup. simpl.
        destruct (put_accepts request r && is_GET q &&
                  String.eqb (cache_key (req_url request)) (cache_key (req_url q))).
        -- intros [= <-]. now right.
        -- now left.
      * unfold lookup_in. rewrite (job_storage_other j _ name Hne). now left.
Qed.

Lemma only_ok_basic_cached_404 :
  on_fetch online_404 style_request initial_world
  = (RespondWith (Fulfilled not_found), log_fetches [style_request] initial_world) /\
  caches (settle (snd (on_fetch online_404 style_request initial_world)))
  = caches (settle initial_world) /\
  forall name,
    lookup_in (caches (snd (on_fetch online_404 style_request initial_world)))
              name style_request = None.
Proof.
  apply (proj1 (only_ok_basic_cached online_404 style_request initial_world) not_found);
    [reflexivity | reflexivity | reflexivity | left; simpl; lia].
Defined.




(** C7, as the code has it: for a request classified asset that
    [caches.match] does not find in any cache of the storage, a failed network
    fetch rejects the promise given to [respondWith] with the network's
    error; no response, and so no fallback, takes its place. *)
Theorem asset_failure_propagates env request w m :
  classify request = Some asset ->
  storage_match (caches w) request = None ->
  network env request = NetFailure m ->
  on_fetch env request w
  = (RespondWith (Rejected (TypeError m)), log_fetches [request] w) /\
  forall r, fst (on_fetch env request w) <> RespondWith (Fulfilled r).
Proof.
  intros Hc Hmiss Hnet.
  rewrite (on_fetch_asset env request w Hc), Hmiss, Hnet.
  split; [reflexivity | intros r; discriminate].
Qed.

Lemma asset_failure_propagates_offline :
  on_fetch offline style_request initial_world
  = (RespondWith (Rejected (TypeError "Failed to fetch")),
     log_fetches [style_request] initial_world) /\
  forall r, fst (on_fetch offline style_request initial_world) <> RespondWith (Fulfilled r).
Proof.
  exact (asset_failure_propagates offline style_request initial_world "Failed to fetch"
           eq_refl eq_refl eq_refl).
Defined.

(** C7, as stated, fails: with the key absent from the current cache and the
    network down, a cache of an earlier version that still holds the key
    answers, and no failure reaches the caller. *)
Lemma asset_offline_answered_by_older_cache :
  classify style_request = Some asset /\
  lookup_in (caches upgraded_world) CACHE_NAME style_request = None /\
  network offline style_request = NetFailure "Failed to fetch" /\
  on_fetch offline style_request upgraded_world
  = (RespondWith (Fulfilled (page "v0")), upgraded_world) /\
  ~ (exists e, fst (on_fetch offline style_request upgraded_world)
               = RespondWith (Rejected e)).
Proof.
  split; [reflexivity|]. split; [reflexivity|]. split; [reflexivity|].
  split; [reflexivity|]. intros [e H]. discriminate H.
Qed.

(** C8: handling a request classified api changes the host state by the one
    logged fetch only: the storage is as before, no write is detached, and
    the storage after the outstanding writes is the one it would have been
    without the event. *)
Theorem api_never_cached env request w :
  classify request = Some api ->
  snd (on_fetch env request w) = log_fetches [request] w /\
  caches (snd (on_fetch env request w)) = caches w /\
  detached (snd (on_fetch env request w)) = detached w /\
  caches (settle (snd (on_fetch env request w))) = caches (settle w).
Proof.
  intros Hc. rewrite (on_fetch_api env request w Hc). simpl.
  repeat split. apply settle_log_fetches.
Qed.

Lemma api_never_cached_logout :
  snd (on_fetch online logout_request visited_world)
  = log_fetches [logout_request] visited_world /\
  caches (snd (on_fetch online logout_request visited_world)) = caches visited_world /\
  detached (snd (on_fetch online logout_request visited_world)) = detached visited_world /\
  caches (settle (snd (on_fetch online logout_request visited_world)))
  = caches (settle visited_world).
Proof. exact (api_never_cached online logout_request visited_world eq_refl). Defined.

(** C10: fetch handling leaves every cache whose name is not [CACHE_NAME] as
    it was, neither creating nor changing one, at the time of the answer
    and once the detached writes are done; every write it detaches names
    [CACHE_NAME]. *)
Theorem fetch_writes_current_only env request w name :
  name <> CACHE_NAME ->
  storage_get (caches (snd (on_fetch env request w))) name = storage_get (caches w) name /\
  storage_get (caches (settle (snd (on_fetch env request w)))) name
  = storage_get (caches (settle w)) name /\
  forall j, In j (detached (snd (on_fetch env request w))) ->
            In j (detached w) \/ job_target j = CACHE_NAME.
Proof.
  intros Hne.
  destruct (on_fetch_world env request w) as [E|[E|(r & _ & _ & _ & E)]]; rewrite E.
  - repeat split. now left.
  - rewrite settle_log_fetches. repeat split. now left.
  - rewrite settle_detach, settle_log_fetches.
    split; [reflexivity|]. split.
    + now apply job_storage_other.
    + simpl. intros j Hj. apply in_app_or in Hj as [Hj|[<-|[]]]; [now left | now right].
Qed.

Lemma fetch_writes_current_only_v0 :
  storage_get (caches (snd (on_fetch online style_request initial_world))) "ponto-eletronico-v0"
  = storage_get (caches initial_world) "ponto-eletronico-v0" /\
  storage_get (caches (settle (snd (on_fetch online style_request initial_world))))
              "ponto-eletronico-v0"
  = storage_get (caches (settle initial_world)) "ponto-eletronico-v0" /\
  forall j, In j (detached (snd (on_fetch online style_request initial_world))) ->
            In j (detached initial_world) \/ job_target j = CACHE_NAME.
Proof.
  apply (fetch_writes_current_only online style_request initial_world "ponto-eletronico-v0").
  discriminate.
Defined.

(** Opportunistic population at work: a first visit with the network up
    stores the style sheet in the current cache, and the second request is
    answered from there with the network down and no further fetch. *)
Example asset_populates_then_hits :
  let first := on_fetch online style_request initial_world in
  let w1 := settle (snd first) in
  fst first = RespondWith (Fulfilled (page (req_url style_request))) /\
  lookup_in (caches w1) CACHE_NAME style_request = Some (page (req_url style_request)) /\
  on_fetch offline style_request w1
  = (RespondWith (Fulfilled (page (req_url style_request))), w1) /\
  net_log w1 = [style_request].
Proof. repeat split; reflexivity. Qed.

(** ** The lifecycle controller *)

Section AddAll.

Variable env : Env.

(** What [cache.addAll] has in hand when no fetch was refused: for every
    request its network response, each one ok, not partial and without [*]
    in its Vary header. *)
Lemma fetch_all_inr qs : forall l,
  fetch_all env qs = inr l ->
  (forall q r, In (q, r) l ->
               In q qs /\ network env q = NetResponse r /\ ok r = true /\
               status r <> 206 /\ vary_star r = false) /\
  (forall q, In q qs -> exists r, In (q, r) l).
Proof.
  induction qs as [|q0 qs IH]; simpl; intros l.
  - intros [= <-]. split; [intros q r [] | intros q []].
  - destruct (network env q0) as [r0|m] eqn:Hnet; [|discriminate].
    destruct (negb (ok r0) || (status r0 =? 206) || vary_star r0) eqn:Hacc; [discriminate|].
    destruct (fetch_all env qs) as [e|l'] eqn:Hrest; [discriminate|].
    intros [= <-]. destruct (IH l' eq_refl) as [IH1 IH2].
    apply orb_false_iff in Hacc as [Hacc Hvary].
    apply orb_false_iff in Hacc as [Hok H206].
    apply negb_false_iff in Hok. apply Z.eqb_neq in H206.
    split.
    + intros q r [E|I].
      * injection E as <- <-. repeat split; try assumption. now left.
      * destruct (IH1 q r I) as (? & ? & ? & ? & ?). repeat split; try assumption. now right.
    + intros q [<-|I].
      * exists r0. now left.
      * destruct (IH2 q I) as [r Hr]. exists r. now right.
Qed.

Lemma fetch_all_total qs :
  (forall q, In q qs ->
             exists r, network env q = NetResponse r /\ ok r = true /\
                       status r <> 206 /\ vary_star r = false) ->
  exists l, fetch_all env qs = inr l.
Proof.
  induction qs as [|q0 qs IH]; simpl; intros H; [eauto|].
  destruct (H q0 (or_introl eq_refl)) as (r0 & -> & Hok & H206 & Hvary).
  rewrite Hok, Hvary. apply Z.eqb_neq in H206. rewrite H206. simpl.
  destruct IH as [l ->]; [intros q I; apply H; now right|]. eauto.
Qed.

(** The entry that a batch of writes leaves under a key. *)
Lemma put_all_lookup l : forall (c : Cache) k r,
  (c !! k = Some r \/ exists q, In (q, r) l /\ cache_key (req_url q) = k) ->
  (forall q' r', In (q', r') l -> cache_key (req_url q') = k -> r' = r) ->
  put_all l c !! k = Some r.
Proof.
  unfold put_all.
  induction l as [|[q0 r0] l IH]; simpl; intros c k r Hin Hsame.
  - destruct Hin as [H|(q & [] & _)]. exact H.
  - apply IH.
    + destruct (decide (cache_key (req_url q0) = k)) as [E|Hne].
      * left. rewrite (Hsame q0 r0 (or_introl eq_refl) E), E. apply lookup_insert_eq.
      * destruct Hin as [H|(q & [E|I] & Hq)].
        -- left. now rewrite lookup_insert_ne.
        -- injection E as <- <-. contradiction.
        -- right. eauto.
    + intros q' r' I. apply Hsame. now right.
Qed.

(** What [cache.addAll] stores of the seed list, when it stores. *)
Lemma seeding_inr l :
  seeding env = inr l ->
  (forall q r, In (q, r) l ->
               In q (map (GET env) urlsToCache) /\ network env q = NetResponse r /\
               vary_star r = false) /\
  (forall q, In q (map (GET env) urlsToCache) -> exists r, In (q, r) l) /\
  NoDup (batch_keys (map (GET env) urlsToCache)) /\
  (forall u, In u urlsToCache -> seed_accepted env u).
Proof.
  unfold seeding.
  destruct (forallb is_http (map (GET env) urlsToCache)) eqn:Hhttp; [|discriminate].
  cbn [negb].
  destruct (fetch_all env (map (GET env) urlsToCache)) as [e|l'] eqn:Hall; [discriminate|].
  case_bool_decide as Hnd; [|discriminate].
  intros [= <-]. destruct (fetch_all_inr _ _ Hall) as [H1 H2].
  split; [|split; [exact H2|split; [exact Hnd|]]].
  - intros q r Hin. destruct (H1 q r Hin) as (? & ? & _ & _ & ?). now repeat split.
  - intros u Hu. split.
    + rewrite forallb_forall in Hhttp. apply Hhttp. now apply in_map.
    + destruct (H2 (GET env u) (in_map (GET env) _ _ Hu)) as [r Hr].
      destruct (H1 _ _ Hr) as (_ & ? & ? & ? & ?). exists r. now repeat split.
Qed.

Lemma seeding_total :
  (forall u, In u urlsToCache -> seed_accepted env u) ->
  NoDup (batch_keys (map (GET env) urlsToCache)) ->
  exists l, seeding env = inr l.
Proof.
  intros Hacc Hnd. unfold seeding.
  assert (Hhttp : forallb is_http (map (GET env) urlsToCache) = true).
  { apply forallb_forall. intros q Hq. apply in_map_iff in Hq as (u & <- & Hu).
    apply (Hacc u Hu). }
  rewrite Hhttp. cbn [negb].
  destruct (fetch_all_total (map (GET env) urlsToCache)) as [l ->].
  { intros q Hq. apply in_map_iff in Hq as (u & <- & Hu). apply (Hacc u Hu). }
  rewrite bool_decide_eq_true_2 by exact Hnd. eauto.
Qed.

End AddAll.

Lemma NoDup_map_eq {A B} (f : A -> B) (l : list A) x y :
  NoDup (map f l) -> In x l -> In y l -> f x = f y -> x = y.
Proof.
  induction l as [|a l IH]; simpl; [tauto|].
  intros Hnd Hx Hy Hf. apply NoDup_cons in Hnd as [Hnotin Hnd].
  destruct Hx as [<-|Hx], Hy as [<-|Hy]; auto.
  - exfalso. apply Hnotin. rewrite Hf. apply list_elem_of_In. now apply in_map.
  - exfalso. apply Hnotin. rewrite <- Hf. apply list_elem_of_In. now apply in_map.
Qed.

(** The install listener, in terms of what [cache.addAll] made of the seed
    list: it fulfils, opens the current cache, stores the seeds or logs the
    error, and calls [skipWaiting]. *)
Lemma on_install_world env w :
  fst (on_install env w) = Fulfilled tt /\
  caches (snd (on_install env w))
  = match seeding env with
    | inl _ => storage_open (caches w) CACHE_NAME
    | inr l => storage_update (storage_open (caches w) CACHE_NAME) CACHE_NAME (put_all l)
    end /\
  console (snd (on_install env w))
  = (console w ++ "Cache aberto" ::
       match seeding env with
       | inl e => ["Erro no cache: " +:+ error_text e]
       | inr _ => []
       end)%list.
Proof.
  unfold on_install, install_chain, catch_, then_, caches_open, effect, cache_addAll, seeding.
  cbv zeta.
  destruct (negb (forallb is_http (map (GET env) urlsToCache))).
  { split; [reflexivity|]. split; [reflexivity|]. simpl. now rewrite <- app_assoc. }
  destruct (fetch_all env (map (GET env) urlsToCache)).
  { split; [reflexivity|]. split; [reflexivity|]. simpl. now rewrite <- app_assoc. }
  case_bool_decide.
  - split; [reflexivity|]. split; reflexivity.
  - split; [reflexivity|]. split; [reflexivity|]. simpl. now rewrite <- app_assoc.
Qed.

(** After a seeding that went through, every seed URL looks up to the
    response the network gave for it. *)
Lemma seeded_lookup env cs l u :
  seeding env = inr l ->
  In u urlsToCache ->
  exists r, network env (GET env u) = NetResponse r /\
            lookup_in (storage_update (storage_open cs CACHE_NAME) CACHE_NAME (put_all l))
                      CACHE_NAME (GET env u) = Some r.
Proof.
  intros Hl Hu. destruct (seeding_inr env l Hl) as (Hl1 & Hl2 & Hnd & _).
  destruct (Hl2 (GET env u) (in_map (GET env) _ _ Hu)) as [r Hr].
  destruct (Hl1 _ _ Hr) as (_ & Hnet & Hvary).
  exists r. split; [exact Hnet|].
  unfold lookup_in.
  rewrite storage_get_update, String.eqb_refl, storage_get_open, String.eqb_refl. simpl.
  unfold cache_match. change (is_GET (GET env u)) with true. cbv iota.
  rewrite (put_all_lookup l _ (cache_key (req_url (GET env u))) r); [now rewrite Hvary | |].
  - right. exists (GET env u). now split.
  - intros q' r' Hq' Hkey.
    destruct (Hl1 _ _ Hq') as (Hin & Hnet' & _).
    assert (q' = GET env u) as ->.
    { apply (NoDup_map_eq (fun q => cache_key (req_url q)) (map (GET env) urlsToCache));
        [exact Hnd | exact Hin | now apply in_map | exact Hkey]. }
    congruence.
Qed.

(** C4, as the code has it: the promise the install listener hands to
    [waitUntil] is always fulfilled, and the cache named by [CACHE_NAME]
    exists afterwards.  When [cache.addAll] goes through with every seed (an
    http or https URL, answered by the network with an ok response that is
    not partial and has no [*] in its Vary header, no two seeds having the
    same URL), every seed URL looks up to its response in that cache.  When
    one seed is refused, the failure is logged, the cache is left as
    [caches.open] found or created it, with no seed entry added, and install
    succeeds all the same. *)
Theorem install_best_effort env w :
  fst (on_install env w) = Fulfilled tt /\
  is_Some (current_store (snd (on_install env w))) /\
  ((forall u, In u urlsToCache -> seed_accepted env u) ->
   NoDup (batch_keys (map (GET env) urlsToCache)) ->
   forall u, In u urlsToCache ->
             exists r, network env (GET env u) = NetResponse r /\
                       lookup_in (caches (snd (on_install env w))) CACHE_NAME (GET env u)
                       = Some r) /\
  ((exists u, In u urlsToCache /\ seed_refused env u) ->
   caches (snd (on_install env w)) = storage_open (caches w) CACHE_NAME /\
   exists e, console (snd (on_install env w))
             = (console w ++ ["Cache aberto"; "Erro no cache: " +:+ error_text e])%list).
Proof.
  destruct (on_install_world env w) as (Hf & Hc & Hco).
  split; [exact Hf|]. split.
  { unfold current_store. rewrite Hc. destruct (seeding env).
    - rewrite storage_get_open, String.eqb_refl. eauto.
    - rewrite storage_get_update, String.eqb_refl, storage_get_open, String.eqb_refl. eauto. }
  split.
  - intros Hacc Hnd u Hu. destruct (seeding_total env Hacc Hnd) as [l Hl].
    rewrite Hc, Hl. now apply seeded_lookup.
  - intros (u & Hu & Hbad). rewrite Hc, Hco.
    destruct (seeding env) as [e|l] eqn:Hl; [split; [reflexivity | eauto]|].
    exfalso. destruct (seeding_inr env l Hl) as (_ & _ & _ & Hacc).
    destruct (Hacc u Hu) as (Hhttp & r & Hnet & Hok & H206 & Hvary).
    destruct Hbad as [Hbad|Hbad]; [congruence|].
    rewrite Hnet in Hbad. destruct Hbad as [?|[?|?]]; congruence.
Qed.

Lemma install_best_effort_online_offline :
  (forall u, In u urlsToCache ->
             exists r, network online (GET online u) = NetResponse r /\
                       lookup_in (caches (snd (on_install online initial_world)))
                                 CACHE_NAME (GET online u) = Some r) /\
  fst (on_install offline initial_world) = Fulfilled tt /\
  caches (snd (on_install offline initial_world))
  = storage_open (caches initial_world) CACHE_NAME.
Proof.
  split; [|split].
  - apply (install_best_effort online initial_world).
    + intros u Hu. unfold urlsToCache in Hu.
      repeat (destruct Hu as [<-|Hu];
              [split; [reflexivity|];
               eexists; split; [reflexivity|];
               split; [reflexivity|]; split; [simpl; lia | reflexivity]|]).
      destruct Hu.
    + apply (bool_decide_unpack _). vm_compute. exact I.
  - apply (install_best_effort offline initial_world).
  - apply (install_best_effort offline initial_world).
    exists "/". split; [now left | right; exact I].
Defined.

(** C4, as stated, fails: with the network down the install listener's
    promise is fulfilled all the same, and the cache of the current version
    is live and empty: no seed URL looks up to a response in it. *)
Lemma install_succeeds_unseeded :
  fst (on_install offline initial_world) = Fulfilled tt /\
  current_store (snd (on_install offline initial_world)) = Some ∅ /\
  In "/login" urlsToCache /\
  lookup_in (caches (snd (on_install offline initial_world))) CACHE_NAME (GET offline "/login")
  = None /\
  ~ (fst (on_install offline initial_world) = Fulfilled tt ->
     forall u, In u urlsToCache ->
               is_Some (lookup_in (caches (snd (on_install offline initial_world)))
                                  CACHE_NAME (GET offline u))).
Proof.
  split; [reflexivity|]. split; [reflexivity|].
  split; [right; now left|]. split; [reflexivity|].
  intros H. specialize (H eq_refl "/login" (or_intror (or_introl eq_refl))).
  destruct H as [r Hr]. discriminate Hr.
Qed.

(** The callback of the activate listener on one name. *)
Lemma delete_if_stale_run cacheName w :
  exists result w',
    delete_if_stale cacheName w = (Fulfilled result, w') /\
    caches w' = (if negb (String.eqb cacheName CACHE_NAME)
                 then storage_delete (caches w) cacheName else caches w) /\
    clients_claimed w' = clients_claimed w.
Proof.
  unfold delete_if_stale.
  destruct (negb (String.eqb cacheName CACHE_NAME)).
  - unfold then_, effect, caches_delete, resolve. simpl. eauto.
  - unfold resolve. eauto.
Qed.

(** The callbacks over a list of cache names: all of them fulfil, and
    together they delete the stale names. *)
Lemma activate_deletions names : forall w,
  exists results w',
    Promise_all (map delete_if_stale names) w = (Fulfilled results, w') /\
    caches w' = purge names (caches w) /\
    clients_claimed w' = clients_claimed w.
Proof.
  induction names as [|n names IH]; intros w.
  - exists [], w. repeat split.
  - destruct (delete_if_stale_run n w) as (result & w1 & Hrun1 & Hc1 & Hcl1).
    destruct (IH w1) as (results & w' & Hrun & Hc & Hcl).
    exists (result :: results), w'.
    split; [|split].
    + simpl. unfold then_ at 1. rewrite Hrun1.
      unfold then_ at 1. now rewrite Hrun.
    + rewrite Hc, Hc1. reflexivity.
    + congruence.
Qed.

Lemma purge_get names : forall cs name,
  storage_get (purge names cs) name =
  if negb (String.eqb name CACHE_NAME) && existsb (String.eqb name) names
  then None else storage_get cs name.
Proof.
  unfold purge.
  induction names as [|n names IH]; intros cs name; simpl.
  - now rewrite andb_false_r.
  - rewrite IH.
    destruct (String.eqb_spec name CACHE_NAME) as [->|Hne]; simpl.
    + destruct (String.eqb_spec n CACHE_NAME) as [->|Hn]; simpl; [reflexivity|].
      rewrite storage_get_delete. now destruct (String.eqb_spec n CACHE_NAME).
    + destruct (existsb (String.eqb name) names); simpl.
      * now rewrite orb_true_r.
      * rewrite orb_false_r.
        destruct (String.eqb_spec name n) as [->|Hnn].
        -- destruct (String.eqb_spec n CACHE_NAME); [contradiction|]. simpl.
           now rewrite storage_get_delete, String.eqb_refl.
        -- destruct (negb (String.eqb n CACHE_NAME)); [|reflexivity].
           rewrite storage_get_delete. destruct (String.eqb_spec n name); [congruence|reflexivity].
Qed.

Lemma on_activate_eq w :
  exists results w',
    on_activate w = (Fulfilled results, w') /\
    caches w' = purge (storage_keys (caches w)) (caches w) /\
    clients_claimed w' = S (clients_claimed w).
Proof.
  destruct (activate_deletions (storage_keys (caches (clients_claim w))) (clients_claim w))
    as (results & w' & Hrun & Hc & Hcl).
  exists results, w'. split; [|split; assumption].
  unfold on_activate, activate_chain, then_, caches_keys. exact Hrun.
Qed.

(** C5: once the activate listener's promise has settled, which it does by
    fulfilling, the storage lists no cache under a name other than
    [CACHE_NAME], the cache of that name is as it was, and
    [self.clients.claim()] has been called. *)
Theorem activate_purges_stale w :
  (exists results, fst (on_activate w) = Fulfilled results) /\
  (forall name, In name (storage_keys (caches (snd (on_activate w)))) -> name = CACHE_NAME) /\
  (forall name, name <> CACHE_NAME -> storage_get (caches (snd (on_activate w))) name = None) /\
  storage_get (caches (snd (on_activate w))) CACHE_NAME = storage_get (caches w) CACHE_NAME /\
  clients_claimed (snd (on_activate w)) = S (clients_claimed w).
Proof.
  destruct (on_activate_eq w) as (results & w' & -> & Hc & Hcl).
  cbn [fst snd]. rewrite Hc, Hcl.
  assert (Hstale : forall name, name <> CACHE_NAME ->
            storage_get (purge (storage_keys (caches w)) (caches w)) name = None).
  { intros name Hne. rewrite purge_get.
    destruct (String.eqb_spec name CACHE_NAME); [contradiction|]. simpl.
    destruct (existsb (String.eqb name) (storage_keys (caches w))) eqn:Hex; [reflexivity|].
    apply storage_get_None. intros Hin.
    assert (existsb (String.eqb name) (storage_keys (caches w)) = true); [|congruence].
    apply existsb_exists. exists name. split; [exact Hin | apply String.eqb_refl]. }
  split; [eauto|]. split; [|split; [exact Hstale|split; [|reflexivity]]].
  - intros name Hin.
    destruct (String.eqb_spec name CACHE_NAME) as [E|Hne]; [exact E|].
    exfalso. revert Hin. apply storage_get_None. now apply Hstale.
  - rewrite purge_get, String.eqb_refl. reflexivity.
Qed.

(** A storage with caches of two other names, before and after activate. *)
Example activate_keeps_current_only :
  storage_keys
    (caches (snd (on_activate
       (with_caches [("ponto-eletronico-v0", ∅); (CACHE_NAME, ∅); ("outro", ∅)]
                    initial_world))))
  = [CACHE_NAME].
Proof. reflexivity. Qed.

(** C9: the message listener calls [self.skipWaiting()], once, when the
    payload is the string 'skipWaiting', and leaves the host state as it was
    for every other payload. *)
Theorem message_skip_waiting data w :
  (data = JSString "skipWaiting" /\ on_message data w = skipWaiting w /\
   skip_waiting (on_message data w) = S (skip_waiting w))
  \/
  (data <> JSString "skipWaiting" /\ on_message data w = w).
Proof.
  unfold on_message.
  destruct data as [| |b|n|s|items|props];
    try (right; split; [discriminate | reflexivity]).
  simpl. destruct (String.eqb_spec s "skipWaiting") as [->|Hne].
  - left. repeat split.
  - right. split; [congruence | reflexivity].
Qed.

Example message_other_payloads :
  on_message (JSString "skipwaiting") initial_world = initial_world /\
  on_message (JSObject [("type", JSString "skipWaiting")]) initial_world = initial_world /\
  on_message (JSString "skipWaiting") initial_world = skipWaiting initial_world.
Proof. repeat split; reflexivity. Qed.

(** * Further properties of the worker *)

(** ** Lookup over the storage *)

Lemma storage_match_app cs cs' request :
  storage_match (cs ++ cs') request =
  match storage_match cs request with
  | Some r => Some r
  | None => storage_match cs' request
  end.
Proof.
  induction cs as [|[n c] rest IH]; simpl; [reflexivity|].
  destruct (cache_match c request); [reflexivity | apply IH].
Qed.

Lemma storage_match_not_GET cs request :
  is_GET request = false -> storage_match cs request = None.
Proof.
  intros Hg. induction cs as [|[n c] rest IH]; simpl; [reflexivity|].
  unfold cache_match. now rewrite Hg.
Qed.

(** After a write under the request's key into the cache called [name], a
    storage that had no entry for the request answers with the written one. *)
Lemma storage_match_after_put cs name request r :
  is_GET request = true ->
  vary_star r = false ->
  storage_match cs request = None ->
  is_Some (storage_get cs name) ->
  storage_match (storage_update cs name (<[cache_key (req_url request) := r]>)) request
  = Some r.
Proof.
  intros Hg Hv. induction cs as [|[n c] rest IH]; simpl.
  - intros _ [c Hc]. discriminate.
  - destruct (cache_match c request) eqn:Hm; [discriminate|].
    intros Hmiss Hget.
    destruct (String.eqb n name); simpl.
    + now rewrite (cache_match_insert c request r request Hv), Hg, String.eqb_refl.
    + rewrite Hm. now apply IH.
Qed.

Lemma storage_match_open cs name request :
  storage_match (storage_open cs name) request = storage_match cs request.
Proof.
  unfold storage_open. destruct (storage_get cs name); [reflexivity|].
  rewrite storage_match_app. simpl.
  destruct (storage_match cs request); [reflexivity|].
  now rewrite cache_match_empty.
Qed.

Lemma lookup_in_open cs name other request :
  lookup_in (storage_open cs name) other request = lookup_in cs other request.
Proof.
  unfold lookup_in. rewrite storage_get_open.
  destruct (String.eqb_spec name other) as [<-|Hne]; [|reflexivity].
  destruct (storage_get cs name); [reflexivity|].
  apply cache_match_empty.
Qed.

Lemma settle_quiet w : detached w = [] -> caches (settle w) = caches w.
Proof. intros H. now rewrite settle_caches, H. Qed.



(** X2: a GET request for an http or https asset that is in no cache,
    answered by the network with status 200, type "basic" and no [*] in its
    Vary header, is in the current cache once the detached write is done, and
    the same request is then answered from the storage with that response,
    whatever the network does, leaving the host state as it is. *)
Theorem asset_populate_roundtrip env env' request w r :
  classify request = Some asset ->
  is_GET request = true ->
  is_http request = true ->
  detached w = [] ->
  storage_match (caches w) request = None ->
  network env request = NetResponse r ->
  status r = 200 -> rtype r = type_basic ->
  vary_star r = false ->
  lookup_in (caches (settle (snd (on_fetch env request w)))) CACHE_NAME request = Some r /\
  on_fetch env' request (settle (snd (on_fetch env request w)))
  = (RespondWith (Fulfilled r), settle (snd (on_fetch env request w))).
Proof.
  intros Hc Hg Hh Hq Hmiss Hnet Hs Ht Hv.
  assert (Hok : negb (status r =? 200) || negb (bool_decide (rtype r = type_basic)) = false)
    by (apply cacheable_iff; now split).
  assert (Hp : put_accepts request r = true).
  { unfold put_accepts. rewrite Hg, Hh, Hv, Hs. reflexivity. }
  rewrite (on_fetch_asset env request w Hc), Hmiss, Hnet, Hok. cbn [snd].
  set (j := OpenAndPut CACHE_NAME request r).
  assert (Hcs : caches (settle (detach j (log_fetches [request] w)))
                = job_storage j (caches w)).
  { rewrite settle_detach, settle_log_fetches. now rewrite (settle_quiet w Hq). }
  split.
  - rewrite Hcs. change CACHE_NAME with (job_target j) at 1.
    rewrite job_storage_lookup. simpl. now rewrite Hp, Hg, String.eqb_refl.
  - rewrite (on_fetch_asset env' request _ Hc), Hcs. simpl. rewrite Hp.
    rewrite storage_match_after_put; [reflexivity | exact Hg | exact Hv | |].
    + now rewrite storage_match_open.
    + rewrite storage_get_open, String.eqb_refl. eauto.
Qed.

Lemma asset_populate_roundtrip_style :
  lookup_in (caches (settle (snd (on_fetch online style_request initial_world))))
            CACHE_NAME style_request = Some (page (req_url style_request)) /\
  on_fetch offline style_request (settle (snd (on_fetch online style_request initial_world)))
  = (RespondWith (Fulfilled (page (req_url style_request))),
     settle (snd (on_fetch online style_request initial_world))).
Proof.
  exact (asset_populate_roundtrip online offline style_request initial_world
           (page (req_url style_request)) eq_refl eq_refl eq_refl eq_refl eq_refl
           eq_refl eq_refl eq_refl eq_refl).
Defined.

(** X3: an asset request whose method is not GET is never answered from the
    storage and never stored: the router issues the one network fetch, hands
    on its outcome, and no cache has an entry it did not have. *)
Theorem asset_not_GET_bypasses_cache env request w :
  classify request = Some asset ->
  is_GET request = false ->
  fst (on_fetch env request w) =
  RespondWith match network env request with
              | NetResponse r => Fulfilled r
              | NetFailure m => Rejected (TypeError m)
              end /\
  net_log (snd (on_fetch env request w)) = (net_log w ++ [request])%list /\
  forall name q,
    lookup_in (caches (settle (snd (on_fetch env request w)))) name q
    = lookup_in (caches (settle w)) name q.
Proof.
  intros Hc Hg.
  rewrite (on_fetch_asset env request w Hc), (storage_match_not_GET _ _ Hg).
  destruct (network env request) as [r|m].
  - split; [reflexivity|].
    destruct (negb (status r =? 200) || negb (bool_decide (rtype r = type_basic))).
    + split; [reflexivity|]. intros name q. cbn [snd]. now rewrite settle_log_fetches.
    + split; [reflexivity|]. intros name q. cbn [snd].
      rewrite settle_detach, settle_log_fetches. simpl.
      unfold put_accepts. rewrite Hg. simpl.
      apply lookup_in_open.
  - split; [reflexivity|]. split; [reflexivity|].
    intros name q. cbn [snd]. now rewrite settle_log_fetches.
Qed.

Lemma asset_not_GET_bypasses_cache_post :
  fst (on_fetch online (mkRequest "POST" (req_url style_request)) visited_world)
  = RespondWith (Fulfilled (page (req_url style_request))) /\
  net_log (snd (on_fetch online (mkRequest "POST" (req_url style_request)) visited_world))
  = (net_log visited_world ++ [mkRequest "POST" (req_url style_request)])%list /\
  forall name q,
    lookup_in (caches (settle (snd (on_fetch online (mkRequest "POST" (req_url style_request))
                                             visited_world)))) name q
    = lookup_in (caches (settle visited_world)) name q.
Proof.
  exact (asset_not_GET_bypasses_cache online (mkRequest "POST" (req_url style_request))
           visited_world eq_refl eq_refl).
Defined.

(** X4: whatever the request, the fetch listener writes nothing to the
    console, calls neither [skipWaiting] nor [clients.claim], and issues at
    most one fetch, which is for the intercepted request itself. *)
Theorem on_fetch_frame env request w :
  console (snd (on_fetch env request w)) = console w /\
  skip_waiting (snd (on_fetch env request w)) = skip_waiting w /\
  clients_claimed (snd (on_fetch env request w)) = clients_claimed w /\
  (net_log (snd (on_fetch env request w)) = net_log w \/
   net_log (snd (on_fetch env request w)) = (net_log w ++ [request])%list).
Proof.
  destruct (on_fetch_world env request w) as [E|[E|(r & _ & _ & _ & E)]]; rewrite E; simpl.
  - repeat split. now left.
  - repeat split. now right.
  - repeat split. now right.
Qed.

(** ** The activate listener in full *)

Lemma storage_delete_filter cs name :
  storage_delete cs name = List.filter (fun nc => negb (String.eqb (fst nc) name)) cs.
Proof.
  induction cs as [|[n c] rest IH]; simpl; [reflexivity|].
  destruct (String.eqb n name); simpl; now rewrite IH.
Qed.

Lemma filter_twice {A} (f g : A -> bool) (l : list A) :
  List.filter f (List.filter g l) = List.filter (fun a => g a && f a) l.
Proof.
  induction l as [|a l IH]; simpl; [reflexivity|].
  destruct (g a); simpl; [destruct (f a)|]; now rewrite IH.
Qed.

Lemma purge_filter names : forall cs,
  purge names cs
  = List.filter (fun nc => negb (is_stale (fst nc) && existsb (String.eqb (fst nc)) names)) cs.
Proof.
  unfold purge. induction names as [|n names IH]; intros cs; simpl.
  - rewrite (List.filter_ext _ (fun _ => true)).
    + induction cs as [|a cs IHcs]; simpl; [reflexivity | now rewrite <- IHcs].
    + intros a. now rewrite andb_false_r.
  - rewrite IH. fold (is_stale n). destruct (is_stale n) eqn:Hn.
    + rewrite storage_delete_filter, filter_twice. apply List.filter_ext.
      intros [x c]. simpl. destruct (String.eqb_spec x n) as [->|Hne]; simpl.
      * now rewrite Hn.
      * reflexivity.
    + apply List.filter_ext. intros [x c]. simpl.
      destruct (String.eqb_spec x n) as [->|Hne]; simpl; [now rewrite Hn | reflexivity].
Qed.

Lemma purge_keys cs :
  purge (storage_keys cs) cs = List.filter (fun nc => String.eqb (fst nc) CACHE_NAME) cs.
Proof.
  rewrite purge_filter. apply List.filter_ext_in. intros [x c] Hin. simpl.
  assert (Hex : existsb (String.eqb x) (storage_keys cs) = true).
  { apply existsb_exists. exists x. split; [|apply String.eqb_refl].
    unfold storage_keys. apply in_map_iff. now exists (x, c). }
  rewrite Hex, andb_true_r. unfold is_stale. apply negb_involutive.
Qed.

(** The callbacks over a list of names: what they leave in each part of the
    host state. *)
Lemma activate_deletions_world names : forall w,
  exists results w',
    Promise_all (map delete_if_stale names) w = (Fulfilled results, w') /\
    caches w' = purge names (caches w) /\
    console w' = (console w ++ map stale_line (List.filter is_stale names))%list /\
    net_log w' = net_log w /\
    skip_waiting w' = skip_waiting w /\
    clients_claimed w' = clients_claimed w /\
    detached w' = detached w.
Proof.
  induction names as [|n names IH]; intros w.
  - exists [], w. simpl. rewrite app_nil_r. repeat split.
  - assert (H1 : exists result,
               delete_if_stale n w
               = (Fulfilled result,
                  if is_stale n
                  then with_caches (storage_delete (caches w) n)
                                   (console_log ["Removendo cache antigo:"; n] w)
                  else w)).
    { unfold delete_if_stale, is_stale. destruct (negb (String.eqb n CACHE_NAME)).
      - unfold then_, effect, caches_delete, resolve. simpl. eauto.
      - unfold resolve. eauto. }
    destruct H1 as [result Hrun1].
    set (w1 := if is_stale n then _ else w) in Hrun1.
    destruct (IH w1) as (results & w' & Hrun & Hc & Hco & Hn & Hs & Hcl & Hd).
    exists (result :: results), w'.
    split.
    { simpl. unfold then_ at 1. rewrite Hrun1. unfold then_ at 1. now rewrite Hrun. }
    rewrite Hc, Hco, Hn, Hs, Hcl, Hd. subst w1. unfold purge. simpl.
    fold (is_stale n). destruct (is_stale n); simpl.
    + rewrite <- app_assoc. repeat split.
    + repeat split.
Qed.

Lemma on_activate_world w :
  (exists results, fst (on_activate w) = Fulfilled results) /\
  caches (snd (on_activate w))
  = List.filter (fun nc => String.eqb (fst nc) CACHE_NAME) (caches w) /\
  console (snd (on_activate w))
  = (console w ++ map stale_line (List.filter is_stale (storage_keys (caches w))))%list /\
  net_log (snd (on_activate w)) = net_log w /\
  skip_waiting (snd (on_activate w)) = skip_waiting w /\
  clients_claimed (snd (on_activate w)) = S (clients_claimed w) /\
  detached (snd (on_activate w)) = detached w.
Proof.
  destruct (activate_deletions_world (storage_keys (caches (clients_claim w))) (clients_claim w))
    as (results & w' & Hrun & Hc & Hco & Hn & Hs & Hcl & Hd).
  assert (E : on_activate w = (Fulfilled results, w')).
  { unfold on_activate, activate_chain, then_, caches_keys. exact Hrun. }
  rewrite E. cbn [fst snd]. rewrite Hc, Hco, Hn, Hs, Hcl, Hd.
  split; [eauto|]. split; [apply purge_keys|]. repeat split.
Qed.

(** X5: the activate listener leaves in the storage exactly the caches
    called [CACHE_NAME], in their order and with their content; it logs one
    line for each cache it removes, in creation order, and issues no fetch,
    calls no [skipWaiting] and detaches no work. *)
Theorem activate_effect w :
  caches (snd (on_activate w))
  = List.filter (fun nc => String.eqb (fst nc) CACHE_NAME) (caches w) /\
  console (snd (on_activate w))
  = (console w ++ map stale_line (List.filter is_stale (storage_keys (caches w))))%list /\
  net_log (snd (on_activate w)) = net_log w /\
  skip_waiting (snd (on_activate w)) = skip_waiting w /\
  detached (snd (on_activate w)) = detached w.
Proof.
  destruct (on_activate_world w) as (_ & Hc & Hco & Hn & Hs & _ & Hd).
  repeat split; assumption.
Qed.

(** X6: activating again finds nothing stale: the storage and the console
    stay as the first activation left them. *)
Theorem activate_idempotent w :
  caches (snd (on_activate (snd (on_activate w)))) = caches (snd (on_activate w)) /\
  console (snd (on_activate (snd (on_activate w)))) = console (snd (on_activate w)).
Proof.
  destruct (on_activate_world (snd (on_activate w))) as (_ & Hc2 & Hco2 & _).
  destruct (on_activate_world w) as (_ & Hc1 & _).
  rewrite Hc2, Hco2, Hc1. split.
  - rewrite filter_twice. apply List.filter_ext. intros a. apply andb_diag.
  - set (cs := caches w).
    assert (H : List.filter is_stale
                  (storage_keys (List.filter (fun nc => String.eqb (fst nc) CACHE_NAME) cs))
                = []).
    { induction cs as [|[n c] rest IH]; simpl; [reflexivity|].
      destruct (String.eqb n CACHE_NAME) eqn:E; simpl; [|exact IH].
      unfold is_stale at 1. rewrite E. simpl. exact IH. }
    rewrite H. simpl. apply app_nil_r.
Qed.

(** ** Addresses at an origin *)

Section Breaking.

Variable stop : ascii -> bool.

Lemma break_app_stop a c b :
  Str.all_chars (fun d => negb (stop d)) a = true ->
  stop c = true ->
  Str.break stop (a +:+ String c b) = (a, String c b).
Proof.
  intros Ha Hc. induction a as [|d a IH]; simpl.
  - now rewrite Hc.
  - simpl in Ha. apply andb_true_iff in Ha as [Hd Ha].
    apply negb_true_iff in Hd. rewrite Hd, (IH Ha). reflexivity.
Qed.

Lemma break_no_stop a :
  Str.all_chars (fun d => negb (stop d)) a = true ->
  Str.break stop a = (a, EmptyString).
Proof.
  intros Ha. induction a as [|d a IH]; simpl; [reflexivity|].
  simpl in Ha. apply andb_true_iff in Ha as [Hd Ha].
  apply negb_true_iff in Hd. rewrite Hd, (IH Ha). reflexivity.
Qed.

End Breaking.

Lemma substring_whole s : String.substring 0 (String.length s) s = s.
Proof. induction s as [|c s IH]; simpl; [reflexivity | now rewrite IH]. Qed.

Lemma app_empty_r s : s +:+ EmptyString = s.
Proof.
  induction s as [|c s IH]; [reflexivity|].
  change (String c (s +:+ EmptyString) = String c s). now rewrite IH.
Qed.

(** Parsing an http or https address, once the scheme is read. *)
Lemma new_URL_special scheme rest :
  is_special scheme = true ->
  new_URL (scheme +:+ "://" +:+ rest) =
  let '(authority, tail) := Str.break (Str.one_of ["/"; "?"; "#"]%char) rest in
  let '(path, tail') := Str.break (Str.one_of ["?"; "#"]%char) tail in
  let '(query, fragment) := Str.break (Str.is_char "#") tail' in
  if String.eqb authority EmptyString then None
  else Some {| protocol := scheme;
               host := authority;
               pathname := if String.eqb path EmptyString then "/" else path;
               search := query;
               hash := fragment |}.
Proof.
  intros Hs. unfold is_special in Hs.
  apply orb_true_iff in Hs as [Hs|Hs]; apply String.eqb_eq in Hs; subst scheme;
    unfold new_URL.
  - change ("http" +:+ "://" +:+ rest)
      with (String "h" (String "t" (String "t" (String "p"
             (String ":" (String "/" (String "/" rest))))))).
    unfold Str.startsWith. simpl. rewrite Nat.sub_0_r, substring_whole.
    assert (String.prefix EmptyString rest = true) as -> by (now destruct rest).
    reflexivity.
  - change ("https" +:+ "://" +:+ rest)
      with (String "h" (String "t" (String "t" (String "p" (String "s"
             (String ":" (String "/" (String "/" rest)))))))).
    unfold Str.startsWith. simpl. rewrite Nat.sub_0_r, substring_whole.
    assert (String.prefix EmptyString rest = true) as -> by (now destruct rest).
    reflexivity.
Qed.

Lemma append_assoc3 a b c : (a +:+ b) +:+ c = a +:+ (b +:+ c).
Proof.
  induction a as [|x a IH]; [reflexivity|].
  change (String x ((a +:+ b) +:+ c) = String x (a +:+ (b +:+ c))). now rewrite IH.
Qed.

(** The path of an address made of an origin, a path and a query or fragment
    is that path. *)
Lemma new_URL_at_origin scheme authority path tail :
  is_special scheme = true ->
  authority <> EmptyString ->
  free_of ["/"; "?"; "#"]%char authority = true ->
  is_path path = true ->
  is_tail tail = true ->
  pathname <$> new_URL (origin_of scheme authority +:+ path +:+ tail) = Some path.
Proof.
  intros Hs Ha Hfree Hp Ht.
  unfold is_path in Hp. apply andb_true_iff in Hp as [Hslash Hpfree].
  destruct path as [|p0 path]; [discriminate|].
  assert (p0 = "/"%char) as ->.
  { unfold Str.startsWith in Hslash. cbn [String.prefix] in Hslash.
    destruct (Ascii.ascii_dec "/" p0); [congruence | discriminate]. }
  unfold origin_of. rewrite !append_assoc3, (new_URL_special _ _ Hs).
  change (String "/" path +:+ tail) with (String "/" (path +:+ tail)).
  rewrite (break_app_stop _ authority "/" (path +:+ tail) Hfree eq_refl).
  change (String "/" (path +:+ tail)) with (String "/" path +:+ tail).
  assert (Hb : Str.break (Str.one_of ["?"; "#"]%char) (String "/" path +:+ tail)
               = (String "/" path, tail)).
  { destruct tail as [|t0 tail].
    - rewrite app_empty_r. now apply break_no_stop.
    - apply break_app_stop; [exact Hpfree | exact Ht]. }
  rewrite Hb. destruct (Str.break (Str.is_char "#") tail) as [query fragment].
  destruct authority; [contradiction | reflexivity].
Qed.

(** Such an address is an http or https one. *)
Lemma is_http_at_origin method scheme authority path tail :
  is_special scheme = true ->
  authority <> EmptyString ->
  free_of ["/"; "?"; "#"]%char authority = true ->
  is_path path = true ->
  is_tail tail = true ->
  is_http {| req_method := method;
             req_url := origin_of scheme authority +:+ path +:+ tail |} = true.
Proof.
  intros Hs Ha Hfree Hp Ht.
  unfold is_path in Hp. apply andb_true_iff in Hp as [Hslash Hpfree].
  destruct path as [|p0 path]; [discriminate|].
  assert (p0 = "/"%char) as ->.
  { unfold Str.startsWith in Hslash. cbn [String.prefix] in Hslash.
    destruct (Ascii.ascii_dec "/" p0); [congruence | discriminate]. }
  unfold is_http, origin_of. cbn [req_url].
  rewrite !append_assoc3, (new_URL_special _ _ Hs).
  change (String "/" path +:+ tail) with (String "/" (path +:+ tail)).
  rewrite (break_app_stop _ authority "/" (path +:+ tail) Hfree eq_refl).
  destruct (Str.break (Str.one_of ["?"; "#"]%char) (String "/" (path +:+ tail)))
    as [path' tail'].
  destruct (Str.break (Str.is_char "#") tail') as [query fragment].
  destruct authority; [contradiction | exact Hs].
Qed.

Lemma classify_path method scheme authority path tail :
  is_special scheme = true ->
  authority <> EmptyString ->
  free_of ["/"; "?"; "#"]%char authority = true ->
  is_path path = true ->
  is_tail tail = true ->
  classify {| req_method := method;
              req_url := origin_of scheme authority +:+ path +:+ tail |}
  = Some (if is_api_path path then api else asset).
Proof.
  intros Hs Ha Hfree Hp Ht.
  pose proof (new_URL_at_origin scheme authority path tail Hs Ha Hfree Hp Ht) as H.
  unfold classify. simpl.
  destruct (new_URL (origin_of scheme authority +:+ path +:+ tail)) as [url|];
    [|discriminate].
  simpl in H. injection H as H. unfold is_api. rewrite H. reflexivity.
Qed.

(** X7: at an http or https origin, the class of a request is decided by the
    path of its URL alone: the method, the origin, the query and the fragment
    have no part in it, and the path is an api path exactly when it starts
    with [/auth/], [/ponto/] or [/admin/]. *)
Theorem classify_by_path method scheme authority path tail :
  is_special scheme = true ->
  authority <> EmptyString ->
  free_of ["/"; "?"; "#"]%char authority = true ->
  is_path path = true ->
  is_tail tail = true ->
  classify {| req_method := method;
              req_url := origin_of scheme authority +:+ path +:+ tail |}
  = Some (if is_api_path path then api else asset).
Proof. apply classify_path. Qed.

Lemma classify_by_path_query :
  classify {| req_method := "GET";
              req_url := "https://ponto.example/static/js/app.js?next=/auth/login#/admin/" |}
  = Some asset.
Proof.
  refine (classify_by_path "GET" "https" "ponto.example" "/static/js/app.js"
            "?next=/auth/login#/admin/" eq_refl _ eq_refl eq_refl eq_refl).
  discriminate.
Defined.

(** ** What install leaves of the entries from before *)

Lemma put_all_cases l : forall (c : Cache) k,
  put_all l c !! k = c !! k \/
  exists q r, In (q, r) l /\ cache_key (req_url q) = k /\ put_all l c !! k = Some r.
Proof.
  unfold put_all. induction l as [|[q0 r0] l IH]; intros c k; simpl; [now left|].
  destruct (IH (<[cache_key (req_url q0) := r0]> c) k) as [E|(q & r & Hin & Hk & E)].
  - destruct (decide (cache_key (req_url q0) = k)) as [Hk|Hne].
    + right. exists q0, r0. split; [now left|]. split; [exact Hk|].
      rewrite E, Hk. apply lookup_insert_eq.
    + left. now rewrite E, lookup_insert_ne.
  - right. exists q, r. split; [now right|]. now split.
Qed.

(** X8: install evicts nothing.  An entry of any cache is still there after
    install: unchanged, or, when it is in the current cache under the URL of
    a seed (fragments apart), replaced by the response the network gave for
    that seed. *)
Theorem install_keeps_entries env w name q r :
  lookup_in (caches w) name q = Some r ->
  exists r',
    lookup_in (caches (snd (on_install env w))) name q = Some r' /\
    (r' = r \/
     (name = CACHE_NAME /\
      exists u, In u urlsToCache /\
                cache_key (req_url (GET env u)) = cache_key (req_url q) /\
                network env (GET env u) = NetResponse r')).
Proof.
  intros Hq. destruct (on_install_world env w) as (_ & Hc & _). rewrite Hc.
  destruct (seeding env) as [e|l] eqn:Hl.
  - exists r. split; [|now left]. now rewrite lookup_in_open.
  - destruct (seeding_inr env l Hl) as (Hl1 & _).
    destruct (String.eqb_spec CACHE_NAME name) as [<-|Hne].
    + unfold lookup_in in *. rewrite storage_get_update, String.eqb_refl.
      rewrite storage_get_open, String.eqb_refl.
      destruct (storage_get (caches w) CACHE_NAME) as [c|] eqn:Hget; [|discriminate].
      simpl. unfold cache_match in *.
      destruct (is_GET q) eqn:Hg; [|discriminate].
      destruct (put_all_cases l c (cache_key (req_url q))) as [E|(q' & r' & Hin & Hk & E)].
      * exists r. split; [now rewrite E | now left].
      * destruct (Hl1 _ _ Hin) as (Hq' & Hnet & Hvary).
        exists r'. split; [now rewrite E, Hvary|]. right.
        apply in_map_iff in Hq' as (u & <- & Hu).
        split; [reflexivity|]. exists u. now repeat split.
    + exists r. split; [|now left].
      unfold lookup_in in *. rewrite storage_get_update.
      destruct (String.eqb_spec CACHE_NAME name); [contradiction|].
      rewrite storage_get_open.
      destruct (String.eqb_spec CACHE_NAME name); [contradiction | exact Hq].
Qed.

Lemma install_keeps_entries_v0 :
  exists r',
    lookup_in (caches (snd (on_install online upgraded_world)))
              "ponto-eletronico-v0" style_request = Some r' /\
    (r' = page "v0" \/
     ("ponto-eletronico-v0" = CACHE_NAME /\
      exists u, In u urlsToCache /\
                cache_key (req_url (GET online u)) = cache_key (req_url style_request) /\
                network online (GET online u) = NetResponse r')).
Proof.
  exact (install_keeps_entries online upgraded_world "ponto-eletronico-v0" style_request
           (page "v0") eq_refl).
Defined.

(** ** From install to the first offline visit *)

Lemma all_chars_app p a b :
  Str.all_chars p (a +:+ b) = Str.all_chars p a && Str.all_chars p b.
Proof.
  induction a as [|c a IH]; [reflexivity|].
  change (String c a +:+ b) with (String c (a +:+ b)). simpl. now rewrite IH, andb_assoc.
Qed.

Lemma all_chars_impl (p q : ascii -> bool) s :
  (forall c, p c = true -> q c = true) ->
  Str.all_chars p s = true -> Str.all_chars q s = true.
Proof.
  intros Hpq. induction s as [|c s IH]; simpl; [reflexivity|].
  rewrite !andb_true_iff. intros [Hc Hs]. split; [now apply Hpq | now apply IH].
Qed.

(** An address without [#] is its own key. *)
Lemma cache_key_no_fragment url :
  Str.all_chars (fun d => negb (Str.is_char "#" d)) url = true -> cache_key url = url.
Proof. intros H. unfold cache_key. now rewrite (break_no_stop _ url H). Qed.

Section Seeds.

Variables (env : Env) (scheme authority : string).
Hypothesis Horigin : origin env = origin_of scheme authority.
Hypothesis Hscheme : is_special scheme = true.
Hypothesis Hauthority : authority <> EmptyString.
Hypothesis Hfree : free_of ["/"; "?"; "#"]%char authority = true.

Lemma origin_no_fragment :
  Str.all_chars (fun d => negb (Str.is_char "#" d)) (origin_of scheme authority) = true.
Proof.
  unfold origin_of. rewrite !all_chars_app.
  assert (Ha : Str.all_chars (fun d => negb (Str.is_char "#" d)) authority = true).
  { revert Hfree. unfold free_of. apply all_chars_impl. intros c.
    unfold Str.one_of, Str.is_char. cbn [existsb]. rewrite !orb_false_r, !negb_true_iff.
    intros H. apply orb_false_iff in H as [_ H]. apply orb_false_iff in H as [_ H].
    now rewrite Ascii.eqb_sym. }
  rewrite Ha. unfold is_special in Hscheme.
  apply orb_true_iff in Hscheme as [H|H]; apply String.eqb_eq in H; subst scheme; reflexivity.
Qed.

(** The seed given as a root-relative path [p]: its request, at this origin. *)
Lemma seed_path p :
  new_URL p = None -> is_path p = true ->
  req_url (GET env p) = origin_of scheme authority +:+ p +:+ EmptyString /\
  cache_key (req_url (GET env p)) = origin_of scheme authority +:+ p.
Proof.
  intros Hnone Hp. unfold GET, resolve_url. cbn [req_url]. rewrite Hnone, Horigin.
  split; [now rewrite app_empty_r|].
  apply cache_key_no_fragment. rewrite all_chars_app, origin_no_fragment. cbn [andb].
  unfold is_path in Hp. apply andb_true_iff in Hp as [_ Hp]. revert Hp.
  unfold free_of. apply all_chars_impl. intros c.
  unfold Str.one_of, Str.is_char. cbn [existsb]. rewrite !orb_false_r, !negb_true_iff.
  intros H. apply orb_false_iff in H as [_ H]. now rewrite Ascii.eqb_sym.
Qed.

(** At an http or https origin, every URL of the seed list makes an asset
    request over http or https. *)
Lemma seed_is_asset u :
  In u urlsToCache ->
  classify (GET env u) = Some asset /\ is_http (GET env u) = true.
Proof.
  intros Hin.
  assert (Hrel : forall path,
             new_URL path = None -> is_path path = true -> is_api_path path = false ->
             classify (GET env path) = Some asset /\ is_http (GET env path) = true).
  { intros path Hnone Hp Hapi.
    destruct (seed_path path Hnone Hp) as [Hurl _].
    assert (E : GET env path
                = {| req_method := "GET";
                     req_url := origin_of scheme authority +:+ path +:+ EmptyString |}).
    { unfold GET in *. cbn [req_url] in Hurl. now rewrite Hurl. }
    rewrite E. split.
    - rewrite (classify_path "GET" scheme authority path EmptyString
                 Hscheme Hauthority Hfree Hp eq_refl).
      now rewrite Hapi.
    - now apply is_http_at_origin. }
  unfold urlsToCache in Hin.
  repeat (destruct Hin as [<-|Hin];
          [first [ now apply Hrel | split; reflexivity ] |]).
  destruct Hin.
Qed.

(** No two seeds have the same URL. *)
Lemma seed_keys_distinct : NoDup (batch_keys (map (GET env) urlsToCache)).
Proof.
  apply (NoDup_fmap_1 (fun key => pathname <$> new_URL key)).
  assert (Hrel : forall path,
             new_URL path = None -> is_path path = true ->
             pathname <$> new_URL (cache_key (req_url (GET env path))) = Some path).
  { intros path Hnone Hp. destruct (seed_path path Hnone Hp) as [_ ->].
    rewrite <- (app_empty_r path) at 1.
    now apply new_URL_at_origin. }
  unfold batch_keys, urlsToCache. cbn [map fmap list_fmap].
  rewrite !Hrel by reflexivity.
  apply (bool_decide_unpack _). vm_compute. exact I.
Qed.

End Seeds.

(** In a storage whose caches all have one name, [caches.match] yields what
    the cache of that name has. *)
Lemma storage_match_all_named cs name request r :
  (forall n, In n (storage_keys cs) -> n = name) ->
  lookup_in cs name request = Some r ->
  storage_match cs request = Some r.
Proof.
  unfold lookup_in. destruct cs as [|[n c] rest]; simpl; [discriminate|].
  intros Hall. rewrite (Hall n (or_introl eq_refl)), String.eqb_refl.
  now intros ->.
Qed.

Lemma storage_get_filter_named cs name :
  storage_get (List.filter (fun nc => String.eqb (fst nc) name) cs) name = storage_get cs name.
Proof.
  induction cs as [|[n c] rest IH]; simpl; [reflexivity|].
  destruct (String.eqb n name) eqn:E; simpl; [now rewrite E | exact IH].
Qed.

Lemma storage_keys_filter_named cs name n :
  In n (storage_keys (List.filter (fun nc => String.eqb (fst nc) name) cs)) -> n = name.
Proof.
  unfold storage_keys. intros H. apply in_map_iff in H as ([n' c] & <- & Hin).
  apply List.filter_In in Hin as [_ E]. now apply String.eqb_eq in E.
Qed.

Lemma no_vary_no_star r : has_vary r = false -> vary_star r = false.
Proof.
  unfold has_vary, vary_star. induction (headers r) as [|kv rest IH]; [reflexivity|].
  cbn [existsb]. intros H. apply orb_false_iff in H as [Hk Hrest].
  rewrite Hk. cbn [andb orb]. now apply IH.
Qed.

(** X9: offline availability of the seed list.  After an install at an http
    or https origin in which the network answered every seed URL with an ok
    response, not partial and without a Vary header, followed by
    activation, a request for any seed URL is an asset request and is
    answered from the storage with the response fetched at install, whatever
    the network does by then, without a fetch and without a change of the
    host state. *)
Theorem seeds_served_offline env env' w scheme authority :
  origin env = origin_of scheme authority ->
  is_special scheme = true ->
  authority <> EmptyString ->
  free_of ["/"; "?"; "#"]%char authority = true ->
  (forall u, In u urlsToCache ->
             exists r, network env (GET env u) = NetResponse r /\
                       ok r = true /\ status r <> 206 /\ has_vary r = false) ->
  forall u, In u urlsToCache ->
    exists r,
      network env (GET env u) = NetResponse r /\
      on_fetch env' (GET env u) (snd (on_activate (snd (on_install env w))))
      = (RespondWith (Fulfilled r), snd (on_activate (snd (on_install env w)))).
Proof.
  intros Ho Hs Ha Hfree Hgood u Hu.
  destruct (seeding_total env) as [l Hl].
  { intros u' Hu'. split.
    - now apply (seed_is_asset env scheme authority Ho Hs Ha Hfree u').
    - destruct (Hgood u' Hu') as (r & Hnet & Hok & Hpart & Hvary).
      exists r. repeat (split; [assumption|]). now apply no_vary_no_star. }
  { now apply (seed_keys_distinct env scheme authority). }
  destruct (seeded_lookup env (caches w) l u Hl Hu) as (r & Hnet & Hlook).
  exists r. split; [exact Hnet|].
  destruct (seed_is_asset env scheme authority Ho Hs Ha Hfree u Hu) as [Hclass _].
  rewrite (on_fetch_asset env' (GET env u) _ Hclass).
  destruct (on_activate_world (snd (on_install env w))) as (_ & Hc & _).
  destruct (on_install_world env w) as (_ & Hci & _).
  rewrite Hc, Hci, Hl.
  rewrite (storage_match_all_named _ CACHE_NAME (GET env u) r); [reflexivity | |].
  - intros n. apply storage_keys_filter_named.
  - unfold lookup_in in *. now rewrite storage_get_filter_named.
Qed.

Lemma seeds_served_offline_login :
  exists r,
    network online (GET online "/login") = NetResponse r /\
    on_fetch offline (GET online "/login")
             (snd (on_activate (snd (on_install online upgraded_world))))
    = (RespondWith (Fulfilled r),
       snd (on_activate (snd (on_install online upgraded_world)))).
Proof.
  refine (seeds_served_offline online offline upgraded_world "https" "ponto.example"
            eq_refl eq_refl _ eq_refl _ "/login" _).
  - discriminate.
  - intros u _. exists (page (req_url (GET online u))).
    split; [reflexivity|]. split; [reflexivity|]. split; [simpl; lia | reflexivity].
  - right. now left.
Defined.

(** ** The cache API at its edges *)

(** The fragment of a URL is no part of the key: the style sheet cached under
    its plain URL answers the request that has a fragment, with the network
    down and without a fetch. *)
Example fragment_is_ignored :
  on_fetch offline style_request_top visited_world
  = (RespondWith (Fulfilled (page (req_url style_request))), visited_world).
Proof. reflexivity. Qed.

(** A response whose Vary header has [*] is answered and not stored, by the
    fetch listener and by install alike; install logs the refusal. *)
Example vary_star_is_not_stored :
  fst (on_fetch online_varying style_request initial_world)
  = RespondWith (Fulfilled varying) /\
  lookup_in (caches (settle (snd (on_fetch online_varying style_request initial_world))))
            CACHE_NAME style_request = None /\
  current_store (snd (on_install online_varying initial_world)) = Some ∅ /\
  console (snd (on_install online_varying initial_world))
  = ["Cache aberto"; "Erro no cache: TypeError: Request failed"].
Proof. repeat split; reflexivity. Qed.

(** A reference with dot segments is not one the page-side embedding covers. *)
Example dot_segments_are_not_plain :
  plain_path "/auth/../static/css/style.css" = false /\ plain_path "/auth/logout" = true.
Proof. split; reflexivity. Qed.

(** * Properties of the page script *)

(** ** Sessions *)

Lemma falsy_true_iff token :
  falsy token = true <-> token = None \/ token = Some EmptyString.
Proof.
  destruct token as [[|c t]|]; simpl; split; intros H; try reflexivity;
    try (now left); try (now right); try discriminate;
    destruct H as [H|H]; discriminate.
Qed.

Lemma falsy_false_iff token :
  falsy token = false <-> exists t, token = Some t /\ t <> EmptyString.
Proof.
  destruct token as [[|c t]|]; simpl; split; intros H; try discriminate; try reflexivity.
  - destruct H as (t & [= <-] & Hne). contradiction.
  - exists (String c t). split; [reflexivity | discriminate].
  - destruct H as (t & H & _). discriminate.
Qed.

(** X10: without a token in [localStorage], or with an empty one,
    [fetchWithAuth] resolves to [null] and does nothing else but warn: no
    request leaves the page, the caller's options are as they were, and the
    storage and the location are untouched. *)
Theorem fetchWithAuth_without_token fetch_ url options p :
  getItem "token" p = None \/ getItem "token" p = Some EmptyString ->
  fetchWithAuth fetch_ url options p
  = (None, options, page_log level_warn ["Token não encontrado"] p) /\
  fetched (snd (fetchWithAuth fetch_ url options p)) = fetched p /\
  localStorage (snd (fetchWithAuth fetch_ url options p)) = localStorage p /\
  location_href (snd (fetchWithAuth fetch_ url options p)) = location_href p.
Proof.
  intros H. apply falsy_true_iff in H.
  unfold fetchWithAuth. rewrite H. repeat split.
Qed.

Lemma fetchWithAuth_without_token_signed_out :
  fetchWithAuth (fun _ _ => NetResponse (page "/ponto/hoje")) "/ponto/hoje" no_init signed_out
  = (None, no_init, page_log level_warn ["Token não encontrado"] signed_out) /\
  fetched (snd (fetchWithAuth (fun _ _ => NetResponse (page "/ponto/hoje"))
                              "/ponto/hoje" no_init signed_out)) = fetched signed_out /\
  localStorage (snd (fetchWithAuth (fun _ _ => NetResponse (page "/ponto/hoje"))
                                   "/ponto/hoje" no_init signed_out))
  = localStorage signed_out /\
  location_href (snd (fetchWithAuth (fun _ _ => NetResponse (page "/ponto/hoje"))
                                    "/ponto/hoje" no_init signed_out))
  = location_href signed_out.
Proof.
  apply (fetchWithAuth_without_token (fun _ _ => NetResponse (page "/ponto/hoje"))
           "/ponto/hoje" no_init signed_out).
  left. reflexivity.
Defined.

(** The options [fetchWithAuth] sends for a token. *)
Lemma fetchWithAuth_with_token fetch_ url options p t :
  getItem "token" p = Some t -> t <> EmptyString ->
  fetchWithAuth fetch_ url options p =
  let sent := set_headers (obj_spread [("Authorization", "Bearer " +:+ t)]
                                      (spreadable (init_headers options))) options in
  let p1 := log_page_fetch url sent p in
  match fetch_ url sent with
  | NetResponse response =>
      if status response =? 401 then
        (None, sent,
         set_location "/login"
           (removeItem "user"
              (removeItem "token"
                 (page_log level_warn ["Token inválido ou expirado"] p1))))
      else (Some response, sent, p1)
  | NetFailure m =>
      (None, sent, page_log level_error ["Erro na requisição:"; error_text (TypeError m)] p1)
  end.
Proof.
  intros Ht Hne. unfold fetchWithAuth. rewrite Ht.
  destruct t as [|c t]; [contradiction|]. simpl.
  now destruct (is_FormData (init_body options)).
Qed.

(** X11: [fetchWithAuth] never hands a 401 response to its caller, and never
    throws: it resolves to [null], or to a response the page's fetch gave for
    the very request recorded last, whose status is not 401. *)
Theorem fetchWithAuth_never_401 fetch_ url options p response :
  fst (fst (fetchWithAuth fetch_ url options p)) = Some response ->
  status response <> 401 /\
  exists sent,
    fetched (snd (fetchWithAuth fetch_ url options p)) = (fetched p ++ [(url, sent)])%list /\
    fetch_ url sent = NetResponse response.
Proof.
  destruct (falsy (getItem "token" p)) eqn:Hf.
  - unfold fetchWithAuth. rewrite Hf. discriminate.
  - apply falsy_false_iff in Hf as (t & Ht & Hne).
    rewrite (fetchWithAuth_with_token fetch_ url options p t Ht Hne). cbv zeta.
    set (sent := set_headers _ _).
    destruct (fetch_ url sent) as [r|m] eqn:Hnet; [|discriminate].
    destruct (status r =? 401) eqn:Hs; [discriminate|].
    simpl. intros [= <-]. apply Z.eqb_neq in Hs. split; [exact Hs|].
    exists sent. now split.
Qed.

Lemma fetchWithAuth_never_401_page :
  status (page "/ponto/hoje") <> 401 /\
  exists sent,
    fetched (snd (fetchWithAuth (fun _ _ => NetResponse (page "/ponto/hoje"))
                                "/ponto/hoje" no_init signed_in))
    = (fetched signed_in ++ [("/ponto/hoje", sent)])%list /\
    (fun _ _ => NetResponse (page "/ponto/hoje")) "/ponto/hoje" sent
    = NetResponse (page "/ponto/hoje").
Proof.
  exact (fetchWithAuth_never_401 (fun _ _ => NetResponse (page "/ponto/hoje"))
           "/ponto/hoje" no_init signed_in (page "/ponto/hoje") eq_refl).
Defined.

(** X12: [fetchWithAuth] leaves the storage and the location alone unless the
    server answers 401; on a 401 it resolves to [null], removes the token and
    the user from the storage, and nothing else, and sends the page to
    [/login]. *)
Theorem fetchWithAuth_session fetch_ url options p :
  if falsy (getItem "token" p)
  then localStorage (snd (fetchWithAuth fetch_ url options p)) = localStorage p /\
       location_href (snd (fetchWithAuth fetch_ url options p)) = location_href p
  else
    match fetch_ url (snd (fst (fetchWithAuth fetch_ url options p))) with
    | NetResponse response =>
        if status response =? 401
        then fst (fst (fetchWithAuth fetch_ url options p)) = None /\
             getItem "token" (snd (fetchWithAuth fetch_ url options p)) = None /\
             getItem "user" (snd (fetchWithAuth fetch_ url options p)) = None /\
             (forall key, key <> "token" -> key <> "user" ->
                          getItem key (snd (fetchWithAuth fetch_ url options p))
                          = getItem key p) /\
             location_href (snd (fetchWithAuth fetch_ url options p)) = "/login"
        else fst (fst (fetchWithAuth fetch_ url options p)) = Some response /\
             localStorage (snd (fetchWithAuth fetch_ url options p)) = localStorage p /\
             location_href (snd (fetchWithAuth fetch_ url options p)) = location_href p
    | NetFailure _ =>
        fst (fst (fetchWithAuth fetch_ url options p)) = None /\
        localStorage (snd (fetchWithAuth fetch_ url options p)) = localStorage p /\
        location_href (snd (fetchWithAuth fetch_ url options p)) = location_href p
    end.
Proof.
  destruct (falsy (getItem "token" p)) eqn:Hf.
  - unfold fetchWithAuth. rewrite Hf. now split.
  - apply falsy_false_iff in Hf as (t & Ht & Hne).
    rewrite (fetchWithAuth_with_token fetch_ url options p t Ht Hne). cbv zeta.
    set (sent := set_headers _ _).
    assert (Hsent : forall (a : option Response) (b : Page),
               snd (fst (a, sent, b)) = sent) by reflexivity.
    destruct (fetch_ url sent) as [r|m] eqn:Hnet.
    + destruct (status r =? 401) eqn:Hs; cbn [fst snd]; rewrite Hnet, ?Hs.
      * unfold getItem. simpl.
        split; [reflexivity|].
        split; [now rewrite lookup_delete_ne, lookup_delete_eq|].
        split; [apply lookup_delete_eq|].
        split; [|reflexivity].
        intros key H1 H2. now rewrite !lookup_delete_ne.
      * now repeat split.
    + cbn [fst snd]. rewrite Hnet. now repeat split.
Qed.

Example fetchWithAuth_401_signed_in :
  let '(result, _, p') :=
    fetchWithAuth (fun _ _ => NetResponse unauthorized) "/ponto/hoje" no_init signed_in in
  result = None /\
  getItem "token" p' = None /\ getItem "user" p' = None /\
  getItem "theme" p' = Some "dark" /\
  location_href p' = "/login".
Proof. repeat split; reflexivity. Qed.

(** ** The headers [fetchWithAuth] sends *)

Lemma obj_get_set k v o k' :
  obj_get (obj_set k v o) k' = if String.eqb k k' then Some v else obj_get o k'.
Proof.
  induction o as [|[k0 v0] o IH]; simpl.
  - reflexivity.
  - destruct (String.eqb_spec k0 k) as [->|Hne]; simpl.
    + now destruct (String.eqb k k').
    + rewrite IH. destruct (String.eqb_spec k0 k') as [->|Hne'].
      * destruct (String.eqb_spec k k'); [congruence | reflexivity].
      * reflexivity.
Qed.

Lemma obj_get_assign b : forall a k,
  NoDup (map fst b) ->
  obj_get (fold_left (fun acc kv => obj_set (fst kv) (snd kv) acc) b a) k
  = match obj_get b k with Some v => Some v | None => obj_get a k end.
Proof.
  induction b as [|[k0 v0] b IH]; intros a k Hnd; simpl; [reflexivity|].
  simpl in Hnd. apply NoDup_cons in Hnd as [Hnotin Hnd].
  rewrite (IH _ _ Hnd), obj_get_set. simpl.
  destruct (String.eqb_spec k0 k) as [->|Hne]; [|reflexivity].
  destruct (obj_get b k) as [v|] eqn:E; [|reflexivity].
  exfalso. apply Hnotin. apply list_elem_of_In. clear -E.
  induction b as [|[k1 v1] b IHb]; simpl in *; [discriminate|].
  destruct (String.eqb_spec k1 k) as [->|Hne]; [now left | right; auto].
Qed.

(** X13: with a token, the request [fetchWithAuth] makes keeps the caller's
    method and body and every header of the caller's plain object; it adds
    [Authorization: Bearer <token>] unless the caller set [Authorization]
    itself, whose value then stands.  The caller's options object is left
    holding these headers.  A [Headers] instance passed as [options.headers]
    contributes nothing. *)
Theorem fetchWithAuth_headers fetch_ url options p t :
  getItem "token" p = Some t -> t <> EmptyString ->
  NoDup (map fst (spreadable (init_headers options))) ->
  exists sent,
    snd (fst (fetchWithAuth fetch_ url options p))
    = {| init_method := init_method options;
         init_headers := headers_object sent;
         init_body := init_body options |} /\
    fetched (snd (fetchWithAuth fetch_ url options p))
    = (fetched p ++ [(url, snd (fst (fetchWithAuth fetch_ url options p)))])%list /\
    (forall k,
       obj_get sent k =
       match obj_get (spreadable (init_headers options)) k with
       | Some v => Some v
       | None => if String.eqb k "Authorization" then Some ("Bearer " +:+ t) else None
       end) /\
    match init_headers options with
    | headers_object _ => True
    | _ => sent = [("Authorization", "Bearer " +:+ t)]
    end.
Proof.
  intros Ht Hne Hnd.
  rewrite (fetchWithAuth_with_token fetch_ url options p t Ht Hne). cbv zeta.
  exists (obj_spread [("Authorization", "Bearer " +:+ t)] (spreadable (init_headers options))).
  assert (Hshape :
    forall res p', snd (fst ((res, set_headers (obj_spread [("Authorization", "Bearer " +:+ t)]
                                    (spreadable (init_headers options))) options, p')
                              : option Response * RequestInit * Page))
    = {| init_method := init_method options;
         init_headers := headers_object (obj_spread [("Authorization", "Bearer " +:+ t)]
                                           (spreadable (init_headers options)));
         init_body := init_body options |}) by reflexivity.
  split; [|split; [|split]].
  - destruct (fetch_ url _) as [r|m]; [destruct (status r =? 401)|]; reflexivity.
  - destruct (fetch_ url _) as [r|m]; [destruct (status r =? 401)|]; reflexivity.
  - intros k. unfold obj_spread. rewrite (obj_get_assign _ _ _ Hnd). simpl.
    rewrite (String.eqb_sym k). reflexivity.
  - destruct (init_headers options); [reflexivity | exact I | reflexivity].
Qed.

Lemma fetchWithAuth_headers_json_post :
  exists sent,
    snd (fst (fetchWithAuth (fun _ _ => NetFailure "Failed to fetch") "/ponto/registrar"
                            json_post signed_in))
    = {| init_method := init_method json_post;
         init_headers := headers_object sent;
         init_body := init_body json_post |} /\
    fetched (snd (fetchWithAuth (fun _ _ => NetFailure "Failed to fetch") "/ponto/registrar"
                                json_post signed_in))
    = (fetched signed_in
       ++ [("/ponto/registrar",
            snd (fst (fetchWithAuth (fun _ _ => NetFailure "Failed to fetch")
                        "/ponto/registrar" json_post signed_in)))])%list /\
    (forall k,
       obj_get sent k =
       match obj_get (spreadable (init_headers json_post)) k with
       | Some v => Some v
       | None => if String.eqb k "Authorization" then Some ("Bearer " +:+ "abc123") else None
       end) /\
    match init_headers json_post with
    | headers_object _ => True
    | _ => sent = [("Authorization", "Bearer " +:+ "abc123")]
    end.
Proof.
  refine (fetchWithAuth_headers (fun _ _ => NetFailure "Failed to fetch") "/ponto/registrar"
            json_post signed_in "abc123" eq_refl _ _).
  - discriminate.
  - simpl. apply NoDup_cons. split; [apply not_elem_of_nil | apply NoDup_nil_2].
Defined.

Lemma logout_token_gone fetch_ p : getItem "token" (logout fetch_ p) = None.
Proof.
  unfold logout, getItem.
  destruct (fetch_ "/auth/logout" _); simpl; now rewrite lookup_delete_ne, lookup_delete_eq.
Qed.

(** X14: [logout] ends the session whatever the server or the network does:
    it makes the one request [POST /auth/logout], then the token and the user
    are gone from the storage, every other key is as it was, and the page
    goes to [/login]. *)
Theorem logout_always_clears fetch_ p :
  getItem "token" (logout fetch_ p) = None /\
  getItem "user" (logout fetch_ p) = None /\
  (forall key, key <> "token" -> key <> "user" ->
               getItem key (logout fetch_ p) = getItem key p) /\
  location_href (logout fetch_ p) = "/login" /\
  fetched (logout fetch_ p)
  = (fetched p ++ [("/auth/logout",
                    {| init_method := Some "POST"; init_headers := headers_undefined;
                       init_body := body_none |})])%list.
Proof.
  unfold logout, getItem.
  destruct (fetch_ "/auth/logout" _) as [r|m]; simpl.
  all: split; [now rewrite lookup_delete_ne, lookup_delete_eq|].
  all: split; [apply lookup_delete_eq|].
  all: split; [|split; reflexivity].
  all: intros key H1 H2; now rewrite !lookup_delete_ne.
Qed.

(** X15: once signed out, by [logout] or by a [fetchWithAuth] that changed
    the storage (which only a 401 answer makes it do), the page stays out:
    [checkAuth] answers false and sends the page to [/login], and a further
    [fetchWithAuth] resolves to [null] without making a request. *)
Theorem signed_out_stays_out fetch_ url options p p' fetch' url' options' :
  p' = logout fetch_ p \/
  (p' = snd (fetchWithAuth fetch_ url options p) /\
   localStorage p' <> localStorage p) ->
  checkAuth p' = (false, set_location "/login" p') /\
  fst (fst (fetchWithAuth fetch' url' options' p')) = None /\
  fetched (snd (fetchWithAuth fetch' url' options' p')) = fetched p'.
Proof.
  intros H.
  assert (Hnone : getItem "token" p' = None).
  { destruct H as [->|[-> Hchanged]].
    - apply logout_token_gone.
    - destruct (falsy (getItem "token" p)) eqn:Hf.
      + exfalso. apply Hchanged. unfold fetchWithAuth. now rewrite Hf.
      + apply falsy_false_iff in Hf as (t & Ht & Hne).
        revert Hchanged.
        rewrite (fetchWithAuth_with_token fetch_ url options p t Ht Hne). cbv zeta.
        destruct (fetch_ url _) as [r|m]; [|intros Hc; now exfalso; apply Hc].
        destruct (status r =? 401); [|intros Hc; now exfalso; apply Hc].
        intros _. unfold getItem. simpl.
        now rewrite lookup_delete_ne, lookup_delete_eq. }
  unfold checkAuth, fetchWithAuth. rewrite Hnone. simpl. repeat split.
Qed.

Lemma signed_out_stays_out_after_logout :
  checkAuth (logout (fun _ _ => NetFailure "Failed to fetch") signed_in)
  = (false, set_location "/login" (logout (fun _ _ => NetFailure "Failed to fetch") signed_in)) /\
  fst (fst (fetchWithAuth (fun _ _ => NetResponse (page "/ponto/hoje")) "/ponto/hoje" no_init
              (logout (fun _ _ => NetFailure "Failed to fetch") signed_in))) = None /\
  fetched (snd (fetchWithAuth (fun _ _ => NetResponse (page "/ponto/hoje")) "/ponto/hoje" no_init
                  (logout (fun _ _ => NetFailure "Failed to fetch") signed_in)))
  = fetched (logout (fun _ _ => NetFailure "Failed to fetch") signed_in).
Proof.
  apply (signed_out_stays_out (fun _ _ => NetFailure "Failed to fetch") "" no_init signed_in
           (logout (fun _ _ => NetFailure "Failed to fetch") signed_in)
           (fun _ _ => NetResponse (page "/ponto/hoje")) "/ponto/hoje" no_init).
  left. reflexivity.
Defined.

(** ** The page script under the worker *)

Lemma request_of_set_headers env url h options :
  request_of env url (set_headers h options) = request_of env url options.
Proof. reflexivity. Qed.

Lemma controlled_fetch_api env w url init :
  classify (request_of env url init) = Some api ->
  fst (controlled_fetch env w url init) =
  NetResponse (as_basic match network env (request_of env url init) with
                        | NetResponse r => r
                        | NetFailure _ => offline_response
                        end).
Proof.
  intros Hc. unfold controlled_fetch.
  now rewrite (on_fetch_api env (request_of env url init) w Hc).
Qed.

Lemma as_basic_filtered r : rtype r <> type_default -> as_basic r = r.
Proof. unfold as_basic. now destruct (rtype r). Qed.

(** X16: for a root-relative api URL without anything for URL resolution to
    rewrite, which the network answers, [fetchWithAuth] under the worker does
    what it does without it, the handling of a 401 included: the same result,
    the same options, the same page. *)
Theorem fetchWithAuth_api_through_worker env w url options p r :
  plain_path url = true ->
  classify (request_of env url options) = Some api ->
  network env (request_of env url options) = NetResponse r ->
  rtype r <> type_default ->
  fetchWithAuth (fun u i => fst (controlled_fetch env w u i)) url options p
  = fetchWithAuth (direct_fetch env) url options p.
Proof.
  intros _ Hc Hnet Htype.
  destruct (falsy (getItem "token" p)) eqn:Hf.
  - unfold fetchWithAuth. now rewrite Hf.
  - apply falsy_false_iff in Hf as (t & Ht & Hne).
    rewrite !(fetchWithAuth_with_token _ url options p t Ht Hne). cbv zeta.
    rewrite controlled_fetch_api by (now rewrite request_of_set_headers).
    unfold direct_fetch. rewrite request_of_set_headers, Hnet.
    now rewrite (as_basic_filtered r Htype).
Qed.

Lemma fetchWithAuth_api_through_worker_401 :
  fetchWithAuth
    (fun u i => fst (controlled_fetch
                       {| origin := page_origin; network := fun _ => NetResponse unauthorized |}
                       visited_world u i))
    "/ponto/hoje" no_init signed_in
  = fetchWithAuth
      (direct_fetch {| origin := page_origin; network := fun _ => NetResponse unauthorized |})
      "/ponto/hoje" no_init signed_in.
Proof.
  refine (fetchWithAuth_api_through_worker
            {| origin := page_origin; network := fun _ => NetResponse unauthorized |}
            visited_world "/ponto/hoje" no_init signed_in unauthorized
            eq_refl eq_refl eq_refl _).
  discriminate.
Defined.



(** X18: at an http or https origin, [logout] under the worker never sees
    its request fail: with the network down the worker answers
    [POST /auth/logout] itself, so nothing is logged, where the same call
    without the worker logs the error.  The session ends either way. *)
Theorem logout_offline_under_worker env w p scheme authority m :
  origin env = origin_of scheme authority ->
  is_special scheme = true ->
  authority <> EmptyString ->
  free_of ["/"; "?"; "#"]%char authority = true ->
  (forall q, network env q = NetFailure m) ->
  page_console (logout (fun u i => fst (controlled_fetch env w u i)) p) = page_console p /\
  page_console (logout (direct_fetch env) p)
  = (page_console p ++ [(level_error, "Erro no logout: " +:+ error_text (TypeError m))])%list /\
  localStorage (logout (fun u i => fst (controlled_fetch env w u i)) p)
  = localStorage (logout (direct_fetch env) p).
Proof.
  intros Ho Hs Ha Hfree Hdown.
  assert (Hc : classify (request_of env "/auth/logout"
                           {| init_method := Some "POST"; init_headers := headers_undefined;
                              init_body := body_none |}) = Some api).
  { unfold request_of. rewrite Ho.
    rewrite <- (app_empty_r "/auth/logout") at 1.
    now rewrite (classify_path _ scheme authority "/auth/logout" EmptyString Hs Ha Hfree). }
  unfold logout. rewrite (controlled_fetch_api env w _ _ Hc).
  unfold direct_fetch. rewrite !Hdown. simpl. repeat split.
Qed.

Lemma logout_offline_under_worker_example :
  page_console (logout (fun u i => fst (controlled_fetch offline visited_world u i)) signed_in)
  = page_console signed_in /\
  page_console (logout (direct_fetch offline) signed_in)
  = (page_console signed_in
     ++ [(level_error, "Erro no logout: " +:+ error_text (TypeError "Failed to fetch"))])%list /\
  localStorage (logout (fun u i => fst (controlled_fetch offline visited_world u i)) signed_in)
  = localStorage (logout (direct_fetch offline) signed_in).
Proof.
  refine (logout_offline_under_worker offline visited_world signed_in "https" "ponto.example"
            "Failed to fetch" eq_refl eq_refl _ eq_refl _).
  - discriminate.
  - intros q. reflexivity.
Defined.

(** ** Alerts *)

Lemma getElementById_Some id d e :
  getElementById id d = Some e -> id <> EmptyString /\ elements d !! id = Some e.
Proof. destruct id; simpl; [discriminate | intros H; split; [discriminate | exact H]]. Qed.

Lemma getElementById_elements id d :
  id <> EmptyString -> getElementById id d = elements d !! id.
Proof. destruct id; [contradiction | reflexivity]. Qed.

Lemma showAlert_found id message type d e :
  getElementById id d = Some e ->
  showAlert id message type d =
  let type := match type with Some t => t | None => "danger" end in
  let shown :=
    update_element id
      (classList_remove "d-none"
         (set_textContent message (set_className ("alert alert-" +:+ type) e))) d in
  if String.eqb type "success" then setTimeout 5000 id shown else shown.
Proof. intros H. unfold showAlert. now rewrite H. Qed.

(** A string without white space is one token. *)
Lemma tokens_from_word word : forall cur,
  Str.all_chars (fun c => negb (is_ws c)) word = true ->
  tokens_from word cur = match cur +:+ word with EmptyString => [] | t => [t] end.
Proof.
  induction word as [|c word IH]; intros cur Hw.
  - rewrite app_empty_r. now destruct cur.
  - simpl in Hw. apply andb_true_iff in Hw as [Hc Hw]. apply negb_true_iff in Hc.
    cbn [tokens_from]. rewrite Hc, (IH _ Hw), append_assoc3. reflexivity.
Qed.

(** X19: [showAlert] on an element of the page, for a type that is one word,
    leaves the element with exactly the classes [alert] and [alert-<type>],
    whatever it had, and with the message as its text; it touches no other
    element, and it sets a timer of 5000 ms on the element for the type
    [success] and for no other. *)
Theorem showAlert_effect id message type d e :
  getElementById id d = Some e ->
  Str.all_chars (fun c => negb (is_ws c)) type = true ->
  getElementById id (showAlert id message (Some type) d)
  = Some {| classes := ["alert"; "alert-" +:+ type]; textContent := message |} /\
  (forall other, other <> id ->
                 elements (showAlert id message (Some type) d) !! other
                 = elements d !! other) /\
  timers (showAlert id message (Some type) d)
  = (timers d ++ if String.eqb type "success" then [(5000, id)] else [])%list.
Proof.
  intros He Hw. destruct (getElementById_Some _ _ _ He) as [Hid _].
  rewrite (showAlert_found id message (Some type) d e He). cbv zeta.
  assert (Hcls : classes (classList_remove "d-none"
                   (set_textContent message (set_className ("alert alert-" +:+ type) e)))
                 = ["alert"; "alert-" +:+ type]).
  { unfold classList_remove, set_textContent, set_className. cbn [classes].
    change (tokens_from ("alert alert-" +:+ type) EmptyString)
      with ("alert" :: tokens_from type "alert-").
    rewrite (tokens_from_word type "alert-" Hw). reflexivity. }
  assert (Hel : classList_remove "d-none"
                  (set_textContent message (set_className ("alert alert-" +:+ type) e))
                = {| classes := ["alert"; "alert-" +:+ type]; textContent := message |}).
  { rewrite <- Hcls. reflexivity. }
  rewrite Hel.
  destruct (String.eqb type "success"); simpl.
  - rewrite (getElementById_elements id _ Hid). simpl. rewrite lookup_insert_eq.
    split; [reflexivity|]. split; [|reflexivity].
    intros other Hne. now rewrite lookup_insert_ne.
  - rewrite (getElementById_elements id _ Hid). simpl. rewrite lookup_insert_eq.
    split; [reflexivity|]. split; [|now rewrite app_nil_r].
    intros other Hne. now rewrite lookup_insert_ne.
Qed.

Lemma showAlert_effect_success :
  getElementById "alerta" (showAlert "alerta" "Ponto registrado" (Some "success") alert_box)
  = Some {| classes := ["alert"; "alert-" +:+ "success"]; textContent := "Ponto registrado" |} /\
  (forall other, other <> "alerta" ->
                 elements (showAlert "alerta" "Ponto registrado" (Some "success") alert_box)
                 !! other = elements alert_box !! other) /\
  timers (showAlert "alerta" "Ponto registrado" (Some "success") alert_box)
  = (timers alert_box ++ if String.eqb "success" "success" then [(5000, "alerta")] else [])%list.
Proof.
  exact (showAlert_effect "alerta" "Ponto registrado" "success" alert_box
           {| classes := ["alert"; "d-none"]; textContent := "" |} eq_refl eq_refl).
Defined.

(** X20: after [showAlert] on an element of the page, whatever the type, the
    element is not hidden and shows the message. *)
Theorem showAlert_shows id message type d e :
  getElementById id d = Some e ->
  ~ hidden id (showAlert id message type d) /\
  exists e', getElementById id (showAlert id message type d) = Some e' /\
             textContent e' = message.
Proof.
  intros He. destruct (getElementById_Some _ _ _ He) as [Hid _].
  rewrite (showAlert_found id message type d e He). cbv zeta.
  set (ty := match type with Some t => t | None => "danger" end).
  set (e1 := classList_remove "d-none" _).
  assert (Hget : getElementById id
                   (if String.eqb ty "success"
                    then setTimeout 5000 id (update_element id e1 d)
                    else update_element id e1 d) = Some e1).
  { rewrite (getElementById_elements id _ Hid).
    destruct (String.eqb ty "success"); simpl; apply lookup_insert_eq. }
  split.
  - intros (e' & He' & Hin). rewrite Hget in He'. injection He' as <-.
    subst e1. unfold classList_remove in Hin. cbn [classes] in Hin.
    apply List.filter_In in Hin as [_ Hneq]. discriminate.
  - exists e1. split; [exact Hget | reflexivity].
Qed.

Lemma showAlert_shows_default :
  ~ hidden "alerta" (showAlert "alerta" "Erro ao registrar" None alert_box) /\
  exists e', getElementById "alerta" (showAlert "alerta" "Erro ao registrar" None alert_box)
             = Some e' /\
             textContent e' = "Erro ao registrar".
Proof.
  exact (showAlert_shows "alerta" "Erro ao registrar" None alert_box
           {| classes := ["alert"; "d-none"]; textContent := "" |} eq_refl).
Defined.

Lemma classList_add_In token e : In token (classes (classList_add token e)).
Proof.
  unfold classList_add. cbn [classes]. case_bool_decide as H.
  - now apply list_elem_of_In.
  - apply in_or_app. right. now left.
Qed.

Lemma classList_add_keeps token e t :
  In t (classes e) -> In t (classes (classList_add token e)).
Proof.
  unfold classList_add. cbn [classes]. case_bool_decide; [tauto|].
  intros Hin. apply in_or_app. now left.
Qed.

Lemma classList_add_twice token e :
  classList_add token (classList_add token e) = classList_add token e.
Proof.
  unfold classList_add at 1. cbn [textContent].
  rewrite bool_decide_eq_true_2; [now destruct (classList_add token e)|].
  apply list_elem_of_In, classList_add_In.
Qed.

(** X21: [hideAlert] on an element of the page hides it, keeping its text
    and the classes it had; hiding again changes nothing. *)
Theorem hideAlert_hides id d e :
  getElementById id d = Some e ->
  hidden id (hideAlert id d) /\
  (exists e', getElementById id (hideAlert id d) = Some e' /\
              textContent e' = textContent e /\
              forall t, In t (classes e) -> In t (classes e')) /\
  hideAlert id (hideAlert id d) = hideAlert id d.
Proof.
  intros He. destruct (getElementById_Some _ _ _ He) as [Hid _].
  assert (Hget : getElementById id (hideAlert id d) = Some (classList_add "d-none" e)).
  { unfold hideAlert. rewrite He, (getElementById_elements id _ Hid). apply lookup_insert_eq. }
  split; [|split].
  - exists (classList_add "d-none" e). split; [exact Hget | apply classList_add_In].
  - exists (classList_add "d-none" e). split; [exact Hget|].
    split; [reflexivity | intros t; apply classList_add_keeps].
  - unfold hideAlert at 1. rewrite Hget. unfold hideAlert. rewrite He.
    unfold update_element. simpl. now rewrite insert_insert_eq, classList_add_twice.
Qed.

Lemma hideAlert_hides_shown :
  hidden "alerta" (hideAlert "alerta" (showAlert "alerta" "Erro" None alert_box)) /\
  (exists e',
     getElementById "alerta" (hideAlert "alerta" (showAlert "alerta" "Erro" None alert_box))
     = Some e' /\
     textContent e' = textContent {| classes := ["alert"; "alert-danger"]; textContent := "Erro" |} /\
     forall t, In t (classes {| classes := ["alert"; "alert-danger"]; textContent := "Erro" |}) ->
               In t (classes e')) /\
  hideAlert "alerta" (hideAlert "alerta" (showAlert "alerta" "Erro" None alert_box))
  = hideAlert "alerta" (showAlert "alerta" "Erro" None alert_box).
Proof.
  exact (hideAlert_hides "alerta" (showAlert "alerta" "Erro" None alert_box)
           {| classes := ["alert"; "alert-danger"]; textContent := "Erro" |} eq_refl).
Defined.

Lemma showAlert_element id message type d e :
  getElementById id d = Some e ->
  exists e', getElementById id (showAlert id message type d) = Some e'.
Proof.
  intros He. destruct (getElementById_Some _ _ _ He) as [Hid _].
  rewrite (showAlert_found id message type d e He). cbv zeta.
  rewrite (getElementById_elements id _ Hid).
  destruct (String.eqb _ "success"); simpl; rewrite lookup_insert_eq; eauto.
Qed.

(** X22: the timer of a success alert is not cancelled by a later
    [showAlert] on the same element: it is still pending after the later
    call, and when it runs it hides the element, which by then shows the
    later message. *)
Theorem success_timer_hides_later_alert id first later type d e :
  getElementById id d = Some e ->
  In (5000, id) (timers (showAlert id later type (showAlert id first (Some "success") d))) /\
  hidden id (run_timer id (showAlert id later type (showAlert id first (Some "success") d))) /\
  exists e',
    getElementById id
      (run_timer id (showAlert id later type (showAlert id first (Some "success") d)))
    = Some e' /\
    textContent e' = later.
Proof.
  intros He. destruct (getElementById_Some _ _ _ He) as [Hid _].
  destruct (showAlert_element id first (Some "success") d e He) as (e1 & He1).
  set (d1 := showAlert id first (Some "success") d) in *.
  assert (Ht1 : In (5000, id) (timers d1)).
  { subst d1. rewrite (showAlert_found id first (Some "success") d e He). simpl.
    apply in_or_app. right. now left. }
  rewrite (showAlert_found id later type d1 e1 He1). cbv zeta.
  set (ty := match type with Some t => t | None => "danger" end).
  set (e2 := classList_remove "d-none" _).
  set (d2 := if String.eqb ty "success" then _ else _).
  assert (Hget : elements d2 !! id = Some e2).
  { subst d2. destruct (String.eqb ty "success"); simpl; apply lookup_insert_eq. }
  assert (Ht2 : In (5000, id) (timers d2)).
  { subst d2. destruct (String.eqb ty "success"); simpl; [|exact Ht1].
    apply in_or_app. now left. }
  assert (Hrun : getElementById id (run_timer id d2) = Some (classList_add "d-none" e2)).
  { unfold run_timer. rewrite Hget, (getElementById_elements id _ Hid). apply lookup_insert_eq. }
  split; [exact Ht2|]. split.
  - exists (classList_add "d-none" e2). split; [exact Hrun | apply classList_add_In].
  - exists (classList_add "d-none" e2). split; [exact Hrun | reflexivity].
Qed.

Lemma success_timer_hides_later_alert_example :
  In (5000, "alerta")
     (timers (showAlert "alerta" "Erro" (Some "danger")
                (showAlert "alerta" "Ponto registrado" (Some "success") alert_box))) /\
  hidden "alerta"
    (run_timer "alerta"
       (showAlert "alerta" "Erro" (Some "danger")
          (showAlert "alerta" "Ponto registrado" (Some "success") alert_box))) /\
  exists e',
    getElementById "alerta"
      (run_timer "alerta"
         (showAlert "alerta" "Erro" (Some "danger")
            (showAlert "alerta" "Ponto registrado" (Some "success") alert_box)))
    = Some e' /\
    textContent e' = "Erro".
Proof.
  exact (success_timer_hides_later_alert "alerta" "Ponto registrado" "Erro" (Some "danger")
           alert_box {| classes := ["alert"; "d-none"]; textContent := "" |} eq_refl).
Defined.

(** X23: [checkAuth] and [fetchWithAuth] agree on what a session is.  When
    [checkAuth] answers true it leaves the page as it is, and [fetchWithAuth]
    on that page makes its request; when it answers false it sends the page
    to [/login], and [fetchWithAuth] resolves to [null] without a request.
    An empty token counts as none for both. *)
Theorem checkAuth_agrees fetch_ url options p :
  if fst (checkAuth p)
  then snd (checkAuth p) = p /\
       exists sent,
         fetched (snd (fetchWithAuth fetch_ url options p))
         = (fetched p ++ [(url, sent)])%list
  else snd (checkAuth p) = set_location "/login" p /\
       fst (fst (fetchWithAuth fetch_ url options p)) = None /\
       fetched (snd (fetchWithAuth fetch_ url options p)) = fetched p.
Proof.
  unfold checkAuth.
  destruct (falsy (getItem "token" p)) eqn:Hf; cbn [fst snd].
  - unfold fetchWithAuth. rewrite Hf. repeat split.
  - split; [reflexivity|].
    apply falsy_false_iff in Hf as (t & Ht & Hne).
    rewrite (fetchWithAuth_with_token fetch_ url options p t Ht Hne). cbv zeta.
    eexists.
    destruct (fetch_ url _) as [r|m]; [destruct (status r =? 401)|]; reflexivity.
Qed.
